(** * PhotoDisintegration: a shallow embedding of
      [src/module/PhotoDisintegration.cpp] and the properties of its
      rate table, interaction selector, interaction executor and
      energy-loss estimator.

    Conventions of the embedding.
    - C++ [int] values are integers of [Z]; signed overflow is undefined
      in C++ and none of the code paths below can reach it for the digit
      sums the code forms.  The C++ locals [A], [Z] and [N] are written
      [A_], [Z_] and [N_].
    - C++ [double] values are modelled by [Double.double]: exact
      rationals extended with the two infinities and a not-a-number
      value, with the IEEE rules for division by zero, for arithmetic on
      infinities and for comparisons with not-a-number.  Rounding is not
      modelled (arithmetic on finite values is exact) and zero is
      unsigned (it behaves as [+0.0]).
    - [std::vector] is a list; [operator[]] outside the bounds is
      undefined behaviour and is reported as [None].
    - Functions and constants that live outside the translation unit
      ([Mpc], [log], [log10], [interpolateEquidistant],
      [photonFieldScaling], [getNucleusMass], [c_squared],
      [getLorentzFactor], the random generator) are parameters of the
      embedding, collected in the record [Env]. *)

From Stdlib Require Import ZArith QArith Qround Lia Lqa Ascii.
From stdpp Require Import base option list strings gmap.

Set Default Proof Using "Type".
Local Open Scope Z_scope.

(** ** Doubles *)

Module Double.

Inductive double : Type :=
| Fin (q : Q)
| PInf
| NInf
| NaN.

Definition zero : double := Fin 0.
Definition one : double := Fin 1.

(** [double(i)] for an [int i]. *)
Definition of_int (i : Z) : double := Fin (inject_Z i).

(** [std::numeric_limits<double>::max()], that is (2^53 - 1) * 2^971. *)
Definition max : double := Fin (inject_Z ((2 ^ 53 - 1) * 2 ^ 971)).

Definition sign (q : Q) : comparison := Qcompare q 0.

Definition signed_inf (c : comparison) : double :=
  match c with
  | Gt => PInf
  | Lt => NInf
  | Eq => NaN
  end.

Definition opp (x : double) : double :=
  match x with
  | Fin a => Fin (- a)
  | PInf => NInf
  | NInf => PInf
  | NaN => NaN
  end.

Definition add (x y : double) : double :=
  match x, y with
  | NaN, _ | _, NaN => NaN
  | Fin a, Fin b => Fin (a + b)
  | PInf, NInf | NInf, PInf => NaN
  | PInf, _ | _, PInf => PInf
  | NInf, _ | _, NInf => NInf
  end.

Definition mul (x y : double) : double :=
  match x, y with
  | NaN, _ | _, NaN => NaN
  | Fin a, Fin b => Fin (a * b)
  | PInf, Fin b | Fin b, PInf => signed_inf (sign b)
  | NInf, Fin b | Fin b, NInf => signed_inf (CompOpp (sign b))
  | PInf, PInf | NInf, NInf => PInf
  | PInf, NInf | NInf, PInf => NInf
  end.

(** Division; a zero divisor is [+0.0]. *)
Definition div (x y : double) : double :=
  match x, y with
  | NaN, _ | _, NaN => NaN
  | Fin a, Fin b =>
      if Qeq_bool b 0 then signed_inf (sign a) else Fin (a / b)
  | Fin _, (PInf | NInf) => Fin 0
  | PInf, Fin b => match sign b with Lt => NInf | _ => PInf end
  | NInf, Fin b => match sign b with Lt => PInf | _ => NInf end
  | (PInf | NInf), (PInf | NInf) => NaN
  end.

(** Comparison; [None] when either side is not a number. *)
Definition compare (x y : double) : option comparison :=
  match x, y with
  | NaN, _ | _, NaN => None
  | Fin a, Fin b => Some (Qcompare a b)
  | PInf, PInf | NInf, NInf => Some Eq
  | PInf, _ | _, NInf => Some Gt
  | NInf, _ | _, PInf => Some Lt
  end.

(** The C++ operators [<], [<=], [>], [>=]. *)
Definition ltb (x y : double) : bool :=
  match compare x y with Some Lt => true | _ => false end.
Definition leb (x y : double) : bool :=
  match compare x y with Some (Lt | Eq) => true | _ => false end.
Definition gtb (x y : double) : bool :=
  match compare x y with Some Gt => true | _ => false end.
Definition geb (x y : double) : bool :=
  match compare x y with Some (Gt | Eq) => true | _ => false end.

Definition is_nan (x : double) : bool :=
  match x with NaN => true | _ => false end.

Definition is_finite (x : double) : bool :=
  match x with Fin _ => true | _ => false end.

(** Two doubles denote the same value. *)
Definition eqv (x y : double) : Prop :=
  match x, y with
  | Fin a, Fin b => (a == b)%Q
  | PInf, PInf | NInf, NInf | NaN, NaN => True
  | _, _ => False
  end.

(** Sum of a sequence, accumulated from the left starting at zero. *)
Definition sum (l : list double) : double := fold_left add l zero.

End Double.

Import Double.

Declare Scope double_scope.
Delimit Scope double_scope with D.
Bind Scope double_scope with double.
Infix "+" := Double.add : double_scope.
Infix "*" := Double.mul : double_scope.
Infix "/" := Double.div : double_scope.
Notation "- x" := (Double.opp x) : double_scope.
Infix "<?" := Double.ltb : double_scope.
Infix "<=?" := Double.leb : double_scope.
Infix ">?" := Double.gtb : double_scope.
Infix ">=?" := Double.geb : double_scope.
Infix "==" := Double.eqv (at level 70, no associativity) : double_scope.

Local Open Scope double_scope.

(** ** Data model *)

(** [enum PhotonField]. *)
Inductive PhotonField : Type := CMB | IRB | CMB_IRB.

(** Modelled from the spec: the nucleus identity.  [getNucleusId(a, z)]
    and its inverses [getMassNumberFromNucleusId] and
    [getChargeNumberFromNucleusId] are declared outside the translation
    unit; the spec gives the identity as the pair (A, Z), so building an
    identity is the record constructor and the inverses are its
    projections. *)
Record NucleusId : Type := getNucleusId { massNumber : Z; chargeNumber : Z }.

Definition getMassNumberFromNucleusId (i : NucleusId) : Z := massNumber i.
Definition getChargeNumberFromNucleusId (i : NucleusId) : Z := chargeNumber i.

(** [struct PDMode]: one disintegration channel of one nuclide. *)
Module PDMode.
Record t : Type := make { channel : Z; rate : list double }.
End PDMode.

(** [struct InteractionState]: the pending interaction. *)
Module InteractionState.
Record t : Type := make { distance : double; channel : Z }.
End InteractionState.

(** The part of [ParticleState] the module reads and writes. *)
Module ParticleState.
Record t : Type := make { id : NucleusId; energy : double }.

Definition getMassNumber (p : t) : Z := massNumber (id p).
Definition getChargeNumber (p : t) : Z := chargeNumber (id p).
Definition getEnergy (p : t) : double := energy p.
Definition setId (i : NucleusId) (p : t) : t := make i (energy p).
Definition setEnergy (e : double) (p : t) : t := make (id p) e.
End ParticleState.

(** The part of [Candidate] the module reads and writes.  A secondary is
    recorded by the identity and energy handed to [addSecondary]; the
    interaction states are the [std::map] from a module description to
    its pending interaction. *)
Module Candidate.
Record t : Type := make {
  current : ParticleState.t;
  redshift : double;
  active : bool;
  secondaries : list ParticleState.t;
  interactionStates : gmap string InteractionState.t
}.

Definition getRedshift (c : t) : double := redshift c.

Definition setCurrent (p : ParticleState.t) (c : t) : t :=
  make p (redshift c) (active c) (secondaries c) (interactionStates c).

Definition setActive (b : bool) (c : t) : t :=
  make (current c) (redshift c) b (secondaries c) (interactionStates c).

Definition addSecondary (i : NucleusId) (e : double) (c : t) : t :=
  make (current c) (redshift c) (active c)
       (secondaries c ++ [ParticleState.make i e]) (interactionStates c).

Definition setInteractionState (name : string) (s : InteractionState.t)
    (c : t) : t :=
  make (current c) (redshift c) (active c) (secondaries c)
       (<[name := s]> (interactionStates c)).

Definition getInteractionState (name : string) (c : t)
    : option InteractionState.t :=
  interactionStates c !! name.

Definition clearInteractionStates (c : t) : t :=
  make (current c) (redshift c) (active c) (secondaries c) ∅.
End Candidate.

(** What the translation unit takes from the rest of the library.
    [rand n] is the value returned by the [n]-th call of
    [Random::instance().rand()] since the start of the run; the state of
    the generator is the number of calls made so far.
    [defaultInteraction] is the value of a default-constructed
    [InteractionState]. *)
Record Env : Type := {
  Mpc : double;
  c_squared : double;
  log : double -> double;
  log10 : double -> double;
  interpolateEquidistant : double -> double -> double -> list double -> double;
  photonFieldScaling : PhotonField -> double -> double;
  getNucleusMass : NucleusId -> double;
  getLorentzFactor : ParticleState.t -> double;
  rand : nat -> double;
  defaultInteraction : InteractionState.t
}.

(** Modelled from the spec: [digit(value, d)], a helper declared outside
    the translation unit.  The spec decodes a count by integer division
    by the power of ten [d] followed by modulo 10; both are the C++
    operators, which truncate towards zero. *)
Definition digit (value d : Z) : Z := Z.rem (Z.quot value d) 10.

(** The rate table: a flat vector of channel lists. *)
Abbreviation PDTable := (list (list PDMode.t)).

(** The object: its photon field, its description and its table. *)
Record PhotoDisintegration : Type := {
  photonField : PhotonField;
  description : string;
  pdTable : PDTable
}.

(** The key arithmetic used by the loader and by both lookups. *)
Definition pdIndex (Z_ N_ : Z) : Z := (Z_ * 31 + N_)%Z.

(** [pdTable[i]]: undefined outside the bounds. *)
Definition tableAt (tbl : PDTable) (i : Z) : option (list PDMode.t) :=
  if (i <? 0)%Z then None else tbl !! Z.to_nat i.

(** [pdTable[i].push_back(pd)]. *)
Definition tablePushBack (tbl : PDTable) (i : Z) (pd : PDMode.t)
    : option PDTable :=
  match tableAt tbl i with
  | Some _ => Some (alter (fun modes => modes ++ [pd]) (Z.to_nat i) tbl)
  | None => None
  end.

(** [pdTable.resize(n)]. *)
Definition tableResize (n : nat) (tbl : PDTable) : PDTable :=
  take n tbl ++ replicate (n - length tbl) [].

(** ** The loader: [PhotoDisintegration::init(std::string)] *)

(** A line of the data file: its text, and the values the successive
    extractions [lineStream >> Z], [lineStream >> N],
    [lineStream >> pd.channel] and [lineStream >> r] deliver.  The [i]-th
    extraction of [r] delivers the [i]-th of [lineValues], and leaves
    [r] at zero when the line has run out. *)
Record Line : Type := {
  lineText : string;
  lineZ : Z;
  lineN : Z;
  lineChannel : Z;
  lineValues : list double
}.

(** [line[0] == '#']. *)
Definition isComment (l : Line) : bool :=
  match lineText l with
  | String c _ => Ascii.eqb c "#"%char
  | EmptyString => false
  end.

(** The loop [for (i = 0; i < 200; i++)] filling [pd.rate]. *)
Definition readRates (env : Env) (values : list double) : list double :=
  map (fun i => nth i values zero / Mpc env) (seq 0 200).

(** The body of the [while (std::getline ...)] loop over the lines. *)
Fixpoint readLines (env : Env) (lines : list Line) (tbl : PDTable)
    : option PDTable :=
  match lines with
  | [] => Some tbl
  | l :: rest =>
      if isComment l then readLines env rest tbl
      else
        let pd := PDMode.make (lineChannel l) (readRates env (lineValues l)) in
        match tablePushBack tbl (pdIndex (lineZ l) (lineN l)) pd with
        | Some tbl' => readLines env rest tbl'
        | None => None
        end
  end.

(** How a call ends. *)
Inductive Outcome (A : Type) : Type :=
| Ok (a : A)
| Throw (what : string)
| Undefined.
Arguments Ok {A} a.
Arguments Throw {A} what.
Arguments Undefined {A}.

(** [init(filename)]; the file is [None] when it cannot be opened. *)
Definition init (env : Env) (file : option (list Line)) (tbl : PDTable)
    : Outcome PDTable :=
  let tbl := tableResize (31 * 57) tbl in
  match file with
  | None => Throw "mpc::PhotoDisintegration: could not open file"
  | Some lines =>
      match readLines env lines tbl with
      | Some tbl' => Ok tbl'
      | None => Undefined
      end
  end.

(** [init(PhotonField)], which the constructor calls on a new object:
    the description and the data file of the photon field, then the
    loader.  [open] stands for [getDataPath] and the file system: the
    lines of the named data file, if it can be opened.  The [default]
    branch of the [switch], which throws on an unknown photon
    background, is out of reach of the three values of the
    enumeration. *)
Definition initField (env : Env) (open : string -> option (list Line))
    (field : PhotonField) : Outcome PhotoDisintegration :=
  let '(descr, name) :=
    match field with
    | CMB => ("PhotoDisintegration: CMB", "photodis_CMB.txt")
    | IRB => ("PhotoDisintegration: IRB", "photodis_IRB.txt")
    | CMB_IRB => ("PhotoDisintegration: CMB and IRB", "photodis_CMB_IRB.txt")
    end in
  match init env (open name) [] with
  | Ok tbl => Ok {| photonField := field; description := descr; pdTable := tbl |}
  | Throw what => Throw what
  | Undefined => Undefined
  end.

(** ** The selector: [PhotoDisintegration::setNextInteraction] *)

(** The loop over the channels: one draw per channel, the sampled
    distance, and the update of the pending interaction unless the
    sample is greater than the distance held so far. *)
Fixpoint selectLoop (env : Env) (lg : double) (pdModes : list PDMode.t)
    (interaction : InteractionState.t) (rng : nat)
    : InteractionState.t * nat :=
  match pdModes with
  | [] => (interaction, rng)
  | m :: rest =>
      let rate :=
        interpolateEquidistant env lg (of_int 6) (of_int 14) (PDMode.rate m) in
      let d := - log env (rand env rng) / rate in
      if d >? InteractionState.distance interaction
      then selectLoop env lg rest interaction (S rng)
      else selectLoop env lg rest
             (InteractionState.make d (PDMode.channel m)) (S rng)
  end.

(** The result of a call: the returned flag, the candidate, the
    [interaction] argument (passed by reference) and the generator
    state. *)
Record Selected : Type := {
  returned : bool;
  candidate' : Candidate.t;
  interaction' : InteractionState.t;
  rng' : nat
}.

(** The coordinate [lg] of a candidate. *)
Definition lgOf (env : Env) (candidate : Candidate.t) : double :=
  log10 env (getLorentzFactor env (Candidate.current candidate)
             * (one + Candidate.getRedshift candidate)).

Definition setNextInteraction (env : Env) (self : PhotoDisintegration)
    (candidate : Candidate.t) (interaction : InteractionState.t) (rng : nat)
    : option Selected :=
  let A_ := ParticleState.getMassNumber (Candidate.current candidate) in
  let Z_ := ParticleState.getChargeNumber (Candidate.current candidate) in
  let N_ := (A_ - Z_)%Z in
  match tableAt (pdTable self) (pdIndex Z_ N_) with
  | None => None
  | Some pdModes =>
      if (length pdModes =? 0)%nat
      then Some (Build_Selected false candidate interaction rng)
      else
        let z := Candidate.getRedshift candidate in
        let lg := lgOf env candidate in
        if (lg <=? of_int 6) || (lg >=? of_int 14)
        then Some (Build_Selected false candidate interaction rng)
        else
          let start :=
            InteractionState.make Double.max
              (InteractionState.channel interaction) in
          let '(found, rng1) := selectLoop env lg pdModes start rng in
          let scaled :=
            InteractionState.make
              (InteractionState.distance found
               / photonFieldScaling env (photonField self) z)
              (InteractionState.channel found) in
          let comoving :=
            InteractionState.make
              (InteractionState.distance scaled * (one + z))
              (InteractionState.channel scaled) in
          Some (Build_Selected true
                  (Candidate.setInteractionState (description self) comoving
                     candidate)
                  comoving rng1)
  end.

(** ** The executor: [PhotoDisintegration::performInteraction] *)

(** The six counts of a channel code, in the order the code reads them. *)
Record Counts : Type := {
  nNeutron : Z;
  nProton : Z;
  nH2 : Z;
  nH3 : Z;
  nHe3 : Z;
  nHe4 : Z
}.

Definition decode (channel : Z) : Counts :=
  {| nNeutron := digit channel 100000;
     nProton := digit channel 10000;
     nH2 := digit channel 1000;
     nH3 := digit channel 100;
     nHe3 := digit channel 10;
     nHe4 := digit channel 1 |}.

(** [dA] and [dZ] as the code writes them. *)
Definition dA_of (c : Counts) : Z :=
  (- nNeutron c - nProton c - 2 * nH2 c - 3 * nH3 c - 3 * nHe3 c
   - 4 * nHe4 c)%Z.

Definition dZ_of (c : Counts) : Z :=
  (- nProton c - nH2 c - nH3 c - 2 * nHe3 c - 2 * nHe4 c)%Z.

(** The number of rounds of [for (size_t i = 0; i < n; i++)] for an
    [int n]: the comparison converts [n] to the 64-bit unsigned type. *)
Definition rounds (n : Z) : nat := Z.to_nat (n mod 2 ^ 64).

(** [for (size_t i = 0; i < n; i++) candidate->addSecondary(i, e)]. *)
Definition addSecondaries (n : Z) (i : NucleusId) (e : double)
    (c : Candidate.t) : Candidate.t :=
  Nat.iter (rounds n) (Candidate.addSecondary i e) c.

Definition performInteraction (env : Env) (self : PhotoDisintegration)
    (candidate : Candidate.t) : Candidate.t :=
  let interaction :=
    default (defaultInteraction env)
      (Candidate.getInteractionState (description self) candidate) in
  let candidate := Candidate.clearInteractionStates candidate in
  let n := decode (InteractionState.channel interaction) in
  let dA := dA_of n in
  let dZ := dZ_of n in
  let A_ := ParticleState.getMassNumber (Candidate.current candidate) in
  let Z_ := ParticleState.getChargeNumber (Candidate.current candidate) in
  let EpA :=
    ParticleState.getEnergy (Candidate.current candidate) / of_int A_ in
  let nA := (A_ + dA)%Z in
  let candidate :=
    if (nA >? 0)%Z
    then
      let candidate :=
        Candidate.setCurrent
          (ParticleState.setId (getNucleusId (A_ + dA) (Z_ + dZ))
             (Candidate.current candidate)) candidate in
      Candidate.setCurrent
        (ParticleState.setEnergy (EpA * of_int (A_ + dA))
           (Candidate.current candidate)) candidate
    else Candidate.setActive false candidate in
  let candidate := addSecondaries (nNeutron n) (getNucleusId 1 0) EpA candidate in
  let candidate := addSecondaries (nProton n) (getNucleusId 1 1) EpA candidate in
  let candidate :=
    addSecondaries (nH2 n) (getNucleusId 2 1) (EpA * of_int 2) candidate in
  let candidate :=
    addSecondaries (nH3 n) (getNucleusId 3 1) (EpA * of_int 3) candidate in
  let candidate :=
    addSecondaries (nHe3 n) (getNucleusId 3 2) (EpA * of_int 3) candidate in
  addSecondaries (nHe4 n) (getNucleusId 4 2) (EpA * of_int 4) candidate.

(** ** The estimator: [PhotoDisintegration::energyLossLength] *)

(** The loop accumulating [lossRate]. *)
Fixpoint lossLoop (env : Env) (lg : double) (A_ : Z)
    (pdModes : list PDMode.t) (lossRate : double) : double :=
  match pdModes with
  | [] => lossRate
  | m :: rest =>
      let rate :=
        interpolateEquidistant env lg (of_int 6) (of_int 14) (PDMode.rate m) in
      let n := decode (PDMode.channel m) in
      let relativeEnergyLoss :=
        of_int (nNeutron n + nProton n + 2 * nH2 n + 3 * nH3 n + 3 * nHe3 n
                + 4 * nHe4 n)
        / of_int A_ in
      lossLoop env lg A_ rest (lossRate + rate * relativeEnergyLoss)
  end.

Definition energyLossLength (env : Env) (self : PhotoDisintegration)
    (id : NucleusId) (E : double) : option double :=
  let A_ := getMassNumberFromNucleusId id in
  let Z_ := getChargeNumberFromNucleusId id in
  let N_ := (A_ - Z_)%Z in
  match tableAt (pdTable self) (pdIndex Z_ N_) with
  | None => None
  | Some pdModes =>
      if (length pdModes =? 0)%nat then Some Double.max
      else
        let lg := log10 env (E / (getNucleusMass env id * c_squared env)) in
        if (lg <=? of_int 6) || (lg >=? of_int 14) then Some Double.max
        else Some (one / lossLoop env lg A_ pdModes zero)
  end.

(** ** Quantities the properties speak about *)

(** The rate of a channel at [lg], and the free path sampled for it with
    the draw number [k]: [-log(u) / rate]. *)
Definition rateAt (env : Env) (lg : double) (m : PDMode.t) : double :=
  interpolateEquidistant env lg (of_int 6) (of_int 14) (PDMode.rate m).

Definition samplePath (env : Env) (lg : double) (m : PDMode.t) (k : nat)
    : double :=
  - log env (rand env k) / rateAt env lg m.

(** The free paths sampled for a list of channels, the first one with
    the draw number [rng], the next with [rng + 1], and so on. *)
Fixpoint samplePaths (env : Env) (lg : double) (pdModes : list PDMode.t)
    (rng : nat) : list double :=
  match pdModes with
  | [] => []
  | m :: rest => samplePath env lg m rng :: samplePaths env lg rest (S rng)
  end.

(** The channel list both lookups read for a candidate: the slot of
    (Z, N) with N = A - Z. *)
Definition channelsOf (self : PhotoDisintegration) (candidate : Candidate.t)
    : option (list PDMode.t) :=
  tableAt (pdTable self)
    (pdIndex (ParticleState.getChargeNumber (Candidate.current candidate))
       (ParticleState.getMassNumber (Candidate.current candidate)
        - ParticleState.getChargeNumber (Candidate.current candidate))).

(** The keys on which the key arithmetic [Z * 31 + N] is one-to-one and
    stays inside the 31 * 57 slots of the table. *)
Definition inDomain (Z_ N_ : Z) : Prop :=
  (0 <= Z_ <= 56)%Z /\ (0 <= N_ <= 30)%Z.

(** [d] is a least element of [ds]. *)
Definition isMinimumOf (d : double) (ds : list double) : Prop :=
  d ∈ ds ∧ ∀ d', d' ∈ ds → (d <=? d') = true.

(** The number of nucleons a channel strips, and the rate of a channel
    weighted by the fraction of nucleons stripped. *)
Definition nucleonsLost (c : Counts) : Z :=
  (nNeutron c + nProton c + 2 * nH2 c + 3 * nH3 c + 3 * nHe3 c
   + 4 * nHe4 c)%Z.

Definition weightedRate (env : Env) (lg : double) (A_ : Z) (m : PDMode.t)
    : double :=
  rateAt env lg m * (of_int (nucleonsLost (decode (PDMode.channel m)))
                     / of_int A_).

(** The secondaries of the six species, for counts that are decimal
    digits, in the order the six loops of the executor append them. *)
Definition secondariesOf (n : Counts) (EpA : double)
    : list ParticleState.t :=
  replicate (Z.to_nat (nNeutron n)) (ParticleState.make (getNucleusId 1 0) EpA)
  ++ replicate (Z.to_nat (nProton n))
       (ParticleState.make (getNucleusId 1 1) EpA)
  ++ replicate (Z.to_nat (nH2 n))
       (ParticleState.make (getNucleusId 2 1) (EpA * of_int 2))
  ++ replicate (Z.to_nat (nH3 n))
       (ParticleState.make (getNucleusId 3 1) (EpA * of_int 3))
  ++ replicate (Z.to_nat (nHe3 n))
       (ParticleState.make (getNucleusId 3 2) (EpA * of_int 3))
  ++ replicate (Z.to_nat (nHe4 n))
       (ParticleState.make (getNucleusId 4 2) (EpA * of_int 4)).

(** The pending interaction the executor reads. *)
Definition pendingOf (env : Env) (self : PhotoDisintegration)
    (candidate : Candidate.t) : InteractionState.t :=
  default (defaultInteraction env)
    (Candidate.getInteractionState (description self) candidate).

(** The secondaries a call of the executor has appended. *)
Definition emitted (before after : Candidate.t) : list ParticleState.t :=
  drop (length (Candidate.secondaries before)) (Candidate.secondaries after).

Definition sumMassNumbers (l : list ParticleState.t) : Z :=
  foldr Z.add 0%Z (ParticleState.getMassNumber <$> l).

Definition sumChargeNumbers (l : list ParticleState.t) : Z :=
  foldr Z.add 0%Z (ParticleState.getChargeNumber <$> l).

Definition sumEnergies (l : list ParticleState.t) : double :=
  Double.sum (ParticleState.getEnergy <$> l).

(** The channel lists a data source puts at index [i]: the records of
    its non-comment lines whose key arithmetic gives [i], in file
    order. *)
Definition recordOf (env : Env) (l : Line) : PDMode.t :=
  PDMode.make (lineChannel l) (readRates env (lineValues l)).

Definition lineIndex (l : Line) : Z := pdIndex (lineZ l) (lineN l).

Definition isRecordAt (i : Z) (l : Line) : bool :=
  negb (isComment l) && (lineIndex l =? i)%Z.

Definition recordsAt (env : Env) (lines : list Line) (i : Z)
    : list PDMode.t :=
  recordOf env <$> List.filter (isRecordAt i) lines.

(** The environment with another random sequence. *)
Definition withRand (rand' : nat -> double) (env : Env) : Env :=
  {| Mpc := Mpc env;
     c_squared := c_squared env;
     log := log env;
     log10 := log10 env;
     interpolateEquidistant := interpolateEquidistant env;
     photonFieldScaling := photonFieldScaling env;
     getNucleusMass := getNucleusMass env;
     getLorentzFactor := getLorentzFactor env;
     rand := rand';
     defaultInteraction := defaultInteraction env |}.

(** A record line carries the pair (Z, N) in its first two fields. *)
Definition isRecordOf (Z_ N_ : Z) (l : Line) : bool :=
  negb (isComment l) && (lineZ l =? Z_)%Z && (lineN l =? N_)%Z.

(** A record line is keyed inside a table of [n] slots. *)
Definition keyedInside (n : nat) (l : Line) : Prop :=
  isComment l = false -> (0 <= lineIndex l < Z.of_nat n)%Z.


(** The channel code that holds six counts at the places the executor
    reads them from. *)
Definition encode (c : Counts) : Z :=
  (nNeutron c * 100000 + nProton c * 10000 + nH2 c * 1000 + nH3 c * 100
   + nHe3 c * 10 + nHe4 c)%Z.

(** The six counts are decimal digits. *)
Definition digitCounts (c : Counts) : Prop :=
  (0 <= nNeutron c <= 9 /\ 0 <= nProton c <= 9 /\ 0 <= nH2 c <= 9
   /\ 0 <= nH3 c <= 9 /\ 0 <= nHe3 c <= 9 /\ 0 <= nHe4 c <= 9)%Z.

(** The number of particles a channel emits. *)
Definition particlesEmitted (c : Counts) : Z :=
  (nNeutron c + nProton c + nH2 c + nH3 c + nHe3 c + nHe4 c)%Z.

(** For channels whose rates at lg are the finite values [r m]: the sum
    over the channels of rate times nucleons stripped. *)
Definition strippingRate (r : PDMode.t -> Q) (pdModes : list PDMode.t) : Q :=
  foldr Qplus 0%Q
    ((fun m => (r m * inject_Z (nucleonsLost (decode (PDMode.channel m))))%Q)
       <$> pdModes).

(** The description and the data file [init(PhotonField)] gives a photon
    field. *)
Definition descriptionOf (field : PhotonField) : string :=
  match field with
  | CMB => "PhotoDisintegration: CMB"
  | IRB => "PhotoDisintegration: IRB"
  | CMB_IRB => "PhotoDisintegration: CMB and IRB"
  end.


(** ** A concrete environment for running the code *)

Module Sample.

Definition sub (x y : double) : double := x + - y.

Definition floor (x : double) : Z :=
  match x with
  | Fin q => Qfloor q
  | _ => 0%Z
  end.

(** Modelled from the spec: [interpolateEquidistant], declared outside
    the translation unit.  The spec gives its contract: for a query
    point, a domain and equidistant samples covering the domain, the
    linearly interpolated value, defined at the domain boundaries. *)
Definition interpolate (x lo hi : double) (Y : list double) : double :=
  if x <=? lo then nth 0 Y zero
  else if x >=? hi then nth (length Y - 1) Y zero
  else
    let dx := sub hi lo / of_int (Z.of_nat (length Y) - 1) in
    let p := sub x lo / dx in
    let i := Z.to_nat (floor p) in
    nth i Y zero
    + sub p (of_int (floor p)) * sub (nth (S i) Y zero) (nth i Y zero).

(** The decimal logarithm, exact on the powers of ten 10^0 .. 10^40 and
    not tabulated (not a number) elsewhere. *)
Definition decimalLog (x : double) : double :=
  match x with
  | Fin q =>
      match
        List.find (fun k => Qeq_bool q (inject_Z (10 ^ Z.of_nat k)))
          (seq 0 41)
      with
      | Some k => of_int (Z.of_nat k)
      | None => NaN
      end
  | _ => NaN
  end.

(** The natural logarithm at the draws the examples use: exact at 1
    and at 0, rounded to six decimals at 1/2 and 1/4, not tabulated
    elsewhere. *)
Definition naturalLog (x : double) : double :=
  match x with
  | Fin q =>
      if Qeq_bool q 1 then Fin 0
      else if Qeq_bool q (1 # 2) then Fin (- (693147 # 1000000))
      else if Qeq_bool q (1 # 4) then Fin (- (1386294 # 1000000))
      else if Qeq_bool q 0 then NInf
      else NaN
  | _ => NaN
  end.

(** Masses in units of the nucleon mass and speeds in units of the
    speed of light. *)
Definition nucleusMass (i : NucleusId) : double := of_int (massNumber i).

Definition lorentzFactor (p : ParticleState.t) : double :=
  ParticleState.energy p / (nucleusMass (ParticleState.id p) * one).

(** The photon density grows with the third power of (1 + z). *)
Definition scaling (_ : PhotonField) (z : double) : double :=
  (one + z) * (one + z) * (one + z).

(** The environment whose generator delivers [draws], then 1/2. *)
Definition env (draws : list double) : Env :=
  {| Mpc := Fin (inject_Z 30856775807000000000000);
     c_squared := one;
     log := naturalLog;
     log10 := decimalLog;
     interpolateEquidistant := interpolate;
     photonFieldScaling := scaling;
     getNucleusMass := nucleusMass;
     getLorentzFactor := lorentzFactor;
     rand := fun k => nth k draws (Fin (1 # 2));
     defaultInteraction := InteractionState.make zero 0 |}.

(** A data line [Z N channel r r ... r] with 200 equal rate values. *)
Definition line (Z_ N_ channel : Z) (r : double) : Line :=
  {| lineText := "record";
     lineZ := Z_;
     lineN := N_;
     lineChannel := channel;
     lineValues := replicate 200 r |}.

(** An object with a given table. *)
Definition object (tbl : PDTable) : PhotoDisintegration :=
  {| photonField := CMB;
     description := "PhotoDisintegration: CMB";
     pdTable := tbl |}.

(** The table loaded from the given lines ([[]] if loading fails). *)
Definition load (lines : list Line) : PDTable :=
  match init (env []) (Some lines) [] with
  | Ok tbl => tbl
  | _ => []
  end.

(** A nucleus (A, Z) of Lorentz factor [gamma] at redshift [z]. *)
Definition nucleus (A_ Z_ : Z) (gamma z : double) : Candidate.t :=
  Candidate.make
    (ParticleState.make (getNucleusId A_ Z_) (of_int A_ * gamma))
    z true [] ∅.

End Sample.

(** * Properties *)

(** ** Order and arithmetic of doubles *)

Section DoubleFacts.

Implicit Types x y z : double.

(** Case analysis on the comparisons of the finite values in sight,
    then linear arithmetic on the rationals. *)
Local Ltac order :=
  unfold Double.ltb, Double.leb, Double.gtb, Double.geb, Double.compare;
  repeat match goal with
    | |- context [Qcompare ?a ?b] => destruct (Qcompare_spec a b)
    | H : context [Qcompare ?a ?b] |- _ => destruct (Qcompare_spec a b)
    end;
  simpl in *; try congruence; try (exfalso; lra).

Lemma gtb_false_leb x y :
  is_nan x = false -> is_nan y = false -> (x >? y) = false ->
  (x <=? y) = true.
Proof. destruct x, y; simpl; order. Qed.

Lemma gtb_ltb x y : (x >? y) = (y <? x).
Proof. destruct x, y; simpl; order. Qed.

Lemma leb_trans x y z :
  (x <=? y) = true -> (y <=? z) = true -> (x <=? z) = true.
Proof. destruct x, y, z; simpl; order. Qed.

Lemma leb_ltb_trans x y z :
  (x <=? y) = true -> (y <? z) = true -> (x <? z) = true.
Proof. destruct x, y, z; simpl; order. Qed.

Lemma ltb_leb x y : (x <? y) = true -> (x <=? y) = true.
Proof. destruct x, y; simpl; order. Qed.

Lemma leb_refl x : is_nan x = false -> (x <=? x) = true.
Proof. destruct x; simpl; order. Qed.

Lemma leb_not_gtb x y : (x <=? y) = true -> (x >? y) = false.
Proof. destruct x, y; simpl; order. Qed.

Lemma leb_is_number x y : (x <=? y) = true -> is_nan x = false.
Proof. destruct x, y; simpl; order. Qed.

(** Strictly inside an interval: neither bound test of the code fires. *)
Lemma inside_not_outside x lo hi :
  (lo <? x) = true -> (x <? hi) = true ->
  (x <=? lo) || (x >=? hi) = false.
Proof. destruct x, lo, hi; simpl; order. Qed.

(** For a number, the bound tests of the code fire exactly outside the
    open interval. *)
Lemma outside_iff x lo hi :
  is_nan x = false -> is_nan lo = false -> is_nan hi = false ->
  (x <=? lo) || (x >=? hi) = true <->
  ~ ((lo <? x) = true /\ (x <? hi) = true).
Proof.
  destruct x, lo, hi; simpl; try discriminate; intros _ _ _;
    order; intuition (try congruence; try lra).
Qed.

Lemma leb_eqv_l x y : x == y -> is_nan x = false -> (x <=? y) = true.
Proof.
  destruct x, y; simpl; intros He Hn; try tauto; try discriminate; order.
Qed.

Lemma geb_eqv_l x y : x == y -> is_nan x = false -> (x >=? y) = true.
Proof.
  destruct x, y; simpl; intros He Hn; try tauto; try discriminate; order.
Qed.

Lemma eqv_refl x : x == x.
Proof. destruct x; simpl; auto with qarith. Qed.

Lemma not_eqv_zero_div (a s : Q) :
  ~ (s == 0)%Q -> Fin a / Fin s = Fin (a / s).
Proof.
  intros Hs. simpl. destruct (Qeq_bool s 0) eqn:E; [|done].
  apply Qeq_bool_iff in E. contradiction.
Qed.

End DoubleFacts.

(** ** The rate table and its loader *)

Section Loader.

Variable env : Env.

Lemma pdIndex_inj Z1 N1 Z2 N2 :
  inDomain Z1 N1 -> inDomain Z2 N2 ->
  pdIndex Z1 N1 = pdIndex Z2 N2 -> Z1 = Z2 /\ N1 = N2.
Proof. unfold inDomain, pdIndex. lia. Qed.

Lemma pdIndex_bound Z_ N_ :
  inDomain Z_ N_ -> (0 <= pdIndex Z_ N_ < 1767)%Z.
Proof. unfold inDomain, pdIndex. lia. Qed.

Lemma tableAt_is_Some (tbl : PDTable) i :
  (0 <= i < Z.of_nat (length tbl))%Z -> is_Some (tableAt tbl i).
Proof.
  intros Hi. unfold tableAt.
  destruct (Z.ltb_spec i 0); [lia|].
  apply lookup_lt_is_Some. lia.
Qed.

Lemma tableAt_pushBack (tbl tbl1 : PDTable) j pd i :
  tablePushBack tbl j pd = Some tbl1 ->
  tableAt tbl1 i =
    if (j =? i)%Z then (fun modes => modes ++ [pd]) <$> tableAt tbl i
    else tableAt tbl i.
Proof.
  unfold tablePushBack.
  destruct (tableAt tbl j) as [old|] eqn:Hj; [|discriminate].
  intros [= <-]. unfold tableAt in *.
  destruct (Z.ltb_spec j 0); [discriminate|].
  destruct (Z.eqb_spec j i) as [->|Hne].
  - destruct (Z.ltb_spec i 0); [lia|]. apply list_lookup_alter_eq.
  - destruct (Z.ltb_spec i 0); [done|].
    apply list_lookup_alter_ne. lia.
Qed.

Lemma length_pushBack (tbl tbl1 : PDTable) j pd :
  tablePushBack tbl j pd = Some tbl1 -> length tbl1 = length tbl.
Proof.
  unfold tablePushBack. destruct (tableAt tbl j); [|discriminate].
  intros [= <-]. apply length_alter.
Qed.

Lemma recordsAt_cons l lines i :
  recordsAt env (l :: lines) i =
    (if isRecordAt i l then [recordOf env l] else [])
    ++ recordsAt env lines i.
Proof. unfold recordsAt. simpl. by destruct (isRecordAt i l). Qed.

(** What the loop over the lines leaves in every slot: the list that
    was there, followed by the records of the lines keyed to the slot,
    in file order. *)
Lemma readLines_spec lines : forall (tbl tbl' : PDTable) i,
  readLines env lines tbl = Some tbl' ->
  tableAt tbl' i =
    (fun modes => modes ++ recordsAt env lines i) <$> tableAt tbl i.
Proof.
  induction lines as [|l lines IH]; intros tbl tbl' i; simpl.
  - intros [= <-]. destruct (tableAt tbl i); simpl; [|done].
    by rewrite app_nil_r.
  - rewrite recordsAt_cons. unfold isRecordAt.
    destruct (isComment l) eqn:Hc; simpl.
    + apply IH.
    + fold (recordOf env l). fold (lineIndex l).
      destruct (tablePushBack tbl (lineIndex l) (recordOf env l))
        as [tbl1|] eqn:Hp; [|discriminate].
      intros Hr. rewrite (IH _ _ i Hr), (tableAt_pushBack _ _ _ _ i Hp).
      destruct (lineIndex l =? i)%Z; [|done].
      destruct (tableAt tbl i); simpl; [|done].
      by rewrite <- app_assoc.
Qed.

(** The loop runs to its end when every record line is keyed inside the
    table. *)
Lemma readLines_total lines : forall tbl : PDTable,
  Forall (fun l => isComment l = false ->
                   (0 <= lineIndex l < Z.of_nat (length tbl))%Z) lines ->
  is_Some (readLines env lines tbl).
Proof.
  induction lines as [|l lines IH]; intros tbl Hall; simpl; [by eexists|].
  apply Forall_cons in Hall as [Hl Hall].
  destruct (isComment l); [by apply IH|].
  specialize (Hl eq_refl).
  fold (recordOf env l). fold (lineIndex l).
  destruct (tablePushBack tbl (lineIndex l) (recordOf env l))
    as [tbl1|] eqn:Hp.
  - apply IH. rewrite (length_pushBack _ _ _ _ Hp). exact Hall.
  - unfold tablePushBack in Hp.
    destruct (tableAt_is_Some tbl (lineIndex l) Hl) as [old Ho].
    by rewrite Ho in Hp.
Qed.

Lemma length_tableResize n (tbl : PDTable) : length (tableResize n tbl) = n.
Proof.
  unfold tableResize.
  rewrite length_app, length_take, length_replicate. lia.
Qed.

Lemma tableAt_fresh n i :
  (0 <= i < Z.of_nat n)%Z -> tableAt (tableResize n []) i = Some [].
Proof.
  intros Hi. unfold tableAt, tableResize.
  destruct (Z.ltb_spec i 0); [lia|].
  rewrite take_nil. simpl. apply lookup_replicate_2. lia.
Qed.

Lemma recordsAt_absent lines i :
  Forall (fun l => isComment l = false -> lineIndex l <> i) lines ->
  recordsAt env lines i = [].
Proof.
  induction 1 as [|l lines Hl _ IH]; [done|].
  rewrite recordsAt_cons, IH. unfold isRecordAt.
  destruct (isComment l); simpl; [done|].
  destruct (Z.eqb_spec (lineIndex l) i); [|done].
  by destruct Hl.
Qed.

End Loader.

(** C1 (the behaviour of the code at the input that separates it from
    the claim).  The claim reads the second field of a record line as
    the mass number A and files the record under (Z, A - Z).  The loader
    files it under the second field as it stands.  For the line of the
    deuteron, [1 2 100000 r ... r] with Z = 1 and A = 2, the record lands
    in slot 1 * 31 + 2 = 33, the slot of Z = 1 and N = 2, and the slot
    1 * 31 + 1 = 32 of (Z, A - Z) = (1, 1) stays empty; so the selector,
    which does derive N = A - Z, finds no channel for the deuteron and
    finds the deuteron's channel for the triton. *)
Theorem loader_files_record_under_second_field :
  let ln := Sample.line 1 2 100000 (Fin 1) in
  let env := Sample.env [] in
  let tbl := Sample.load [ln] in
  let gamma := of_int (10 ^ 10) in
  init env (Some [ln]) [] = Ok tbl
  /\ tableAt tbl (pdIndex 1 (2 - 1)) = Some []
  /\ tableAt tbl (pdIndex 1 2) = Some [recordOf env ln]
  /\ (returned <$> setNextInteraction env (Sample.object tbl)
        (Sample.nucleus 2 1 gamma zero) (defaultInteraction env) 0)
     = Some false
  /\ ((fun r => (returned r, InteractionState.channel (interaction' r)))
        <$> setNextInteraction env (Sample.object tbl)
              (Sample.nucleus 3 1 gamma zero) (defaultInteraction env) 0)
     = Some (true, 100000%Z).
Proof. vm_compute. repeat split; reflexivity. Qed.

(** C3 (counterexample).  Z = 1, N = 0 and Z = 0, N = 31 both lie in
    [0,30] x [0,56] and share the slot 31: loading one record for
    (1, 0) changes the list returned for (0, 31), which the data source
    never mentions. *)
Lemma pdTable_keys_collide :
  let ln := Sample.line 1 0 100000 (Fin 1) in
  let env := Sample.env [] in
  let before := tableResize (31 * 57) [] in
  ((0 <= 1 <= 30 /\ 0 <= 0 <= 56) /\ (0 <= 0 <= 30 /\ 0 <= 31 <= 56))%Z
  /\ (1, 0)%Z <> (0, 31)%Z
  /\ tableAt before (pdIndex 0 31) = Some []
  /\ init env (Some [ln]) [] = Ok (Sample.load [ln])
  /\ tableAt (Sample.load [ln]) (pdIndex 0 31) = Some [recordOf env ln].
Proof.
  repeat split; try lia; try discriminate; vm_compute; reflexivity.
Qed.

(** C3 (amended).  On the keys with Z in [0,56] and N in [0,30] the
    table is a mapping keyed by the pair (Z, N): loading a record for
    one key appends it to the list of that key and leaves the list
    returned for every other key as it was, and after loading a data
    source into a new table a key that no record line carries maps to the
    empty list. *)
Theorem pdTable_entries_independent (env : Env) (tbl : PDTable)
    (l : Line) (lines : list Line) (Z2 N2 : Z) :
  length tbl = (31 * 57)%nat ->
  inDomain Z2 N2 ->
  isComment l = false ->
  inDomain (lineZ l) (lineN l) ->
  (lineZ l, lineN l) <> (Z2, N2) ->
  Forall (fun l' => isComment l' = false ->
            inDomain (lineZ l') (lineN l')
            /\ (lineZ l', lineN l') <> (Z2, N2)) lines ->
  (exists tbl',
     readLines env [l] tbl = Some tbl'
     /\ tableAt tbl' (pdIndex Z2 N2) = tableAt tbl (pdIndex Z2 N2)
     /\ tableAt tbl' (pdIndex (lineZ l) (lineN l)) =
          (fun modes => modes ++ [recordOf env l])
            <$> tableAt tbl (pdIndex (lineZ l) (lineN l)))
  /\ (exists tbl',
        init env (Some lines) [] = Ok tbl'
        /\ tableAt tbl' (pdIndex Z2 N2) = Some []).
Proof.
  intros Hlen Hd2 Hc Hd1 Hne Hall. split.
  - assert (Hidx : lineIndex l <> pdIndex Z2 N2).
    { intros He. apply Hne.
      destruct (pdIndex_inj _ _ _ _ Hd1 Hd2 He). congruence. }
    destruct (readLines_total env [l] tbl) as [tbl' Hr].
    { constructor; [|constructor]. intros _.
      pose proof (pdIndex_bound _ _ Hd1). unfold lineIndex. lia. }
    exists tbl'. split; [exact Hr|]. split.
    + rewrite (readLines_spec env _ _ _ _ Hr), recordsAt_cons.
      unfold isRecordAt. rewrite Hc. simpl.
      destruct (Z.eqb_spec (lineIndex l) (pdIndex Z2 N2)); [done|].
      simpl. destruct (tableAt tbl (pdIndex Z2 N2)); simpl; [|done].
      by rewrite app_nil_r.
    + rewrite (readLines_spec env _ _ _ _ Hr), recordsAt_cons.
      unfold isRecordAt. rewrite Hc. fold (lineIndex l).
      rewrite Z.eqb_refl. simpl. done.
  - unfold init.
    destruct (readLines_total env lines (tableResize (31 * 57) []))
      as [tbl' Hr].
    { rewrite length_tableResize. eapply Forall_impl; [exact Hall|].
      simpl. intros l' Hl' Hc'. destruct (Hl' Hc') as [Hd' _].
      pose proof (pdIndex_bound _ _ Hd'). unfold lineIndex. lia. }
    exists tbl'. rewrite Hr. split; [done|].
    rewrite (readLines_spec env _ _ _ _ Hr), recordsAt_absent.
    + rewrite tableAt_fresh; [done|]. pose proof (pdIndex_bound _ _ Hd2). lia.
    + eapply Forall_impl; [exact Hall|].
      simpl. intros l' Hl' Hc' He. destruct (Hl' Hc') as [Hd' Hne'].
      apply Hne'. destruct (pdIndex_inj _ _ _ _ Hd' Hd2 He). congruence.
Qed.

(** The amended statement at a table of two record lines: the record of
    iron-56 (Z = 26, N = 30) leaves the list of helium-3 (Z = 2, N = 1)
    alone, and helium-3, which no line carries, maps to the empty
    list. *)
Lemma pdTable_entries_independent_witness :
  let env := Sample.env [] in
  let l := Sample.line 26 30 10000 (Fin 1) in
  let lines := [Sample.line 2 2 100000 (Fin 1); l] in
  let tbl := tableResize (31 * 57) [] in
  (exists tbl',
     readLines env [l] tbl = Some tbl'
     /\ tableAt tbl' (pdIndex 2 1) = tableAt tbl (pdIndex 2 1)
     /\ tableAt tbl' (pdIndex 26 30) =
          (fun modes => modes ++ [recordOf env l])
            <$> tableAt tbl (pdIndex 26 30))
  /\ (exists tbl',
        init env (Some lines) [] = Ok tbl'
        /\ tableAt tbl' (pdIndex 2 1) = Some []).
Proof.
  apply (pdTable_entries_independent (Sample.env [])
           (tableResize (31 * 57) [])
           (Sample.line 26 30 10000 (Fin 1))
           [Sample.line 2 2 100000 (Fin 1); Sample.line 26 30 10000 (Fin 1)]
           2 1).
  - vm_compute. reflexivity.
  - unfold inDomain. lia.
  - reflexivity.
  - unfold inDomain. simpl. lia.
  - discriminate.
  - repeat constructor; unfold inDomain; simpl; try lia; discriminate.
Defined.

(** ** The selector *)

Section Selector.

Variable env : Env.

Implicit Types (lg : double) (m : PDMode.t) (pdModes : list PDMode.t).
Implicit Types (st : InteractionState.t) (rng : nat).

Lemma selectLoop_cons lg m pdModes st rng :
  selectLoop env lg (m :: pdModes) st rng =
    if samplePath env lg m rng >? InteractionState.distance st
    then selectLoop env lg pdModes st (S rng)
    else selectLoop env lg pdModes
           (InteractionState.make (samplePath env lg m rng)
              (PDMode.channel m)) (S rng).
Proof. reflexivity. Qed.

(** The loop draws once per channel. *)
Lemma selectLoop_rng lg pdModes : forall st rng,
  (selectLoop env lg pdModes st rng).2 = (rng + length pdModes)%nat.
Proof.
  induction pdModes as [|m rest IH]; intros st rng.
  - simpl. lia.
  - rewrite selectLoop_cons.
    destruct (samplePath env lg m rng >? InteractionState.distance st);
      rewrite IH; simpl; lia.
Qed.

(** When every sample is greater than the distance held at the start,
    the loop hands back the interaction it was given. *)
Lemma selectLoop_all_greater lg pdModes : forall st rng,
  Forall (fun d => (d >? InteractionState.distance st) = true)
    (samplePaths env lg pdModes rng) ->
  (selectLoop env lg pdModes st rng).1 = st.
Proof.
  induction pdModes as [|m rest IH]; intros st rng Hall; [done|].
  simpl in Hall. apply Forall_cons in Hall as [Hd Hrest].
  rewrite selectLoop_cons, Hd. by apply IH.
Qed.

(** The invariant of the loop when the samples are numbers: the
    distance held never grows, it is at most every sample seen, and it
    either is the one held at the start, every sample being greater,
    or is the sample of some channel [k], whose code is held with it,
    every later sample being strictly greater. *)
Lemma selectLoop_min lg pdModes : forall st rng,
  is_nan (InteractionState.distance st) = false ->
  Forall (fun d => is_nan d = false) (samplePaths env lg pdModes rng) ->
  let st' := (selectLoop env lg pdModes st rng).1 in
  (InteractionState.distance st' <=? InteractionState.distance st) = true
  /\ Forall (fun d => (InteractionState.distance st' <=? d) = true)
       (samplePaths env lg pdModes rng)
  /\ ((st' = st
       /\ Forall (fun d => (d >? InteractionState.distance st) = true)
            (samplePaths env lg pdModes rng))
      \/ exists k m d,
           pdModes !! k = Some m
           /\ samplePaths env lg pdModes rng !! k = Some d
           /\ st' = InteractionState.make d (PDMode.channel m)
           /\ Forall (fun d' => (d <? d') = true)
                (drop (S k) (samplePaths env lg pdModes rng))).
Proof.
  induction pdModes as [|m rest IH]; intros st rng Hst Hall.
  - simpl. split; [by apply leb_refl|]. split; [constructor|].
    left. split; [done|constructor].
  - simpl in Hall. apply Forall_cons in Hall as [Hd Hrest].
    rewrite selectLoop_cons. cbn [samplePaths].
    set (d := samplePath env lg m rng) in *.
    destruct (d >? InteractionState.distance st) eqn:Hgt.
    + destruct (IH st (S rng) Hst Hrest) as (H1 & H2 & H3).
      split; [exact H1|]. split.
      * constructor; [|exact H2].
        eapply leb_trans; [exact H1|].
        apply ltb_leb. by rewrite <- gtb_ltb.
      * destruct H3 as [[He Hg]|(k & m' & d' & Hk & Hs & He & Hl)].
        -- left. split; [done|]. by constructor.
        -- right. by exists (S k), m', d'.
    + pose proof (gtb_false_leb _ _ Hd Hst Hgt) as Hle.
      destruct (IH (InteractionState.make d (PDMode.channel m)) (S rng)
                  Hd Hrest) as (H1 & H2 & H3).
      simpl in H1, H2, H3.
      split; [by eapply leb_trans|]. split; [by constructor|].
      right.
      destruct H3 as [[He Hg]|(k & m' & d' & Hk & Hs & He & Hl)].
      * exists 0%nat, m, d. rewrite He. simpl.
        repeat split; try done.
        eapply Forall_impl; [exact Hg|].
        simpl. intros d'. by rewrite gtb_ltb.
      * by exists (S k), m', d'.
Qed.

(** The call in the case where it goes on to sample. *)
Lemma setNextInteraction_samples self candidate interaction rng pdModes :
  tableAt (pdTable self)
    (pdIndex (ParticleState.getChargeNumber (Candidate.current candidate))
       (ParticleState.getMassNumber (Candidate.current candidate)
        - ParticleState.getChargeNumber (Candidate.current candidate)))
    = Some pdModes ->
  pdModes <> [] ->
  (lgOf env candidate <=? of_int 6) || (lgOf env candidate >=? of_int 14)
    = false ->
  let z := Candidate.getRedshift candidate in
  let found :=
    (selectLoop env (lgOf env candidate) pdModes
       (InteractionState.make Double.max
          (InteractionState.channel interaction)) rng).1 in
  let comoving :=
    InteractionState.make
      (InteractionState.distance found
       / photonFieldScaling env (photonField self) z * (one + z))
      (InteractionState.channel found) in
  setNextInteraction env self candidate interaction rng =
    Some (Build_Selected true
            (Candidate.setInteractionState (description self) comoving
               candidate)
            comoving (rng + length pdModes)).
Proof.
  intros Ht Hne Hin. unfold setNextInteraction. rewrite Ht.
  destruct pdModes as [|m rest]; [done|].
  cbn [length Nat.eqb]. rewrite Hin.
  pose proof (selectLoop_rng (lgOf env candidate) (m :: rest)
                (InteractionState.make Double.max
                   (InteractionState.channel interaction)) rng) as Hr.
  destruct (selectLoop env (lgOf env candidate) (m :: rest) _ rng)
    as [found rng1].
  simpl in Hr. subst rng1. reflexivity.
Qed.

(** The call in the cases where it gives up. *)
Lemma setNextInteraction_gives_up self candidate interaction rng pdModes :
  tableAt (pdTable self)
    (pdIndex (ParticleState.getChargeNumber (Candidate.current candidate))
       (ParticleState.getMassNumber (Candidate.current candidate)
        - ParticleState.getChargeNumber (Candidate.current candidate)))
    = Some pdModes ->
  pdModes = []
  \/ (lgOf env candidate <=? of_int 6) || (lgOf env candidate >=? of_int 14)
     = true ->
  setNextInteraction env self candidate interaction rng =
    Some (Build_Selected false candidate interaction rng).
Proof.
  intros Ht Hout. unfold setNextInteraction. rewrite Ht.
  destruct pdModes as [|m rest]; [done|].
  destruct Hout as [|Hout]; [done|].
  cbn [length Nat.eqb]. by rewrite Hout.
Qed.

(** The call when some sample is a number not above the largest finite
    double: it returns true after one draw per channel, and holds the
    code and the scaled sample [d] of a channel [k] such that no
    sample is below [d] and every later sample is strictly above. *)
Lemma setNextInteraction_minimum self candidate interaction rng pdModes :
  channelsOf self candidate = Some pdModes ->
  (of_int 6 <? lgOf env candidate) = true ->
  (lgOf env candidate <? of_int 14) = true ->
  let ds := samplePaths env (lgOf env candidate) pdModes rng in
  let z := Candidate.getRedshift candidate in
  Forall (fun d => is_nan d = false) ds ->
  Exists (fun d => (d <=? Double.max) = true) ds ->
  exists r k m d,
    setNextInteraction env self candidate interaction rng = Some r
    /\ returned r = true
    /\ rng' r = (rng + length pdModes)%nat
    /\ pdModes !! k = Some m
    /\ ds !! k = Some d
    /\ interaction' r =
         InteractionState.make
           (d / photonFieldScaling env (photonField self) z * (one + z))
           (PDMode.channel m)
    /\ (forall j d', ds !! j = Some d' -> (d <=? d') = true)
    /\ (forall j d', (k < j)%nat -> ds !! j = Some d' -> (d <? d') = true).
Proof.
  intros Ht Hlo Hhi ds z Hnum Hex.
  assert (Hne : pdModes <> []).
  { intros ->. by apply Exists_nil in Hex. }
  pose proof (setNextInteraction_samples self candidate interaction rng
                pdModes Ht Hne (inside_not_outside _ _ _ Hlo Hhi)) as Hcall.
  destruct (selectLoop_min (lgOf env candidate) pdModes
              (InteractionState.make Double.max
                 (InteractionState.channel interaction)) rng
              eq_refl Hnum) as (_ & Hmin & Hcase).
  destruct Hcase as [[_ Hall]|(k & m & d & Hk & Hd & Hfound & Hlater)].
  - exfalso. apply Exists_exists in Hex as (d & Hin & Hle).
    rewrite Forall_forall in Hall. specialize (Hall d Hin). simpl in Hall.
    apply leb_not_gtb in Hle. congruence.
  - simpl in Hcall. rewrite Hfound in Hcall, Hmin. simpl in Hcall, Hmin.
    eexists _, k, m, d. split; [exact Hcall|]. simpl.
    repeat split; try done.
    + intros j d' Hj. rewrite Forall_lookup in Hmin. by eapply Hmin.
    + intros j d' Hkj Hj. rewrite Forall_lookup in Hlater.
      apply (Hlater (j - S k)%nat d').
      rewrite lookup_drop. fold ds. rewrite <- Hj. f_equal. lia.
Qed.

(** The call when every sample is above the largest finite double
    (every rate zero at lg, say), whatever the environment: it returns
    true, and the pending interaction holds the channel the caller's
    interaction held on entry and the scaled sentinel. *)
Lemma setNextInteraction_no_sample_taken self candidate interaction rng
    pdModes :
  channelsOf self candidate = Some pdModes ->
  pdModes <> [] ->
  (of_int 6 <? lgOf env candidate) = true ->
  (lgOf env candidate <? of_int 14) = true ->
  Forall (fun d => (d >? Double.max) = true)
    (samplePaths env (lgOf env candidate) pdModes rng) ->
  exists r,
    setNextInteraction env self candidate interaction rng = Some r
    /\ returned r = true
    /\ rng' r = (rng + length pdModes)%nat
    /\ interaction' r =
         InteractionState.make
           (Double.max
            / photonFieldScaling env (photonField self)
                (Candidate.getRedshift candidate)
            * (one + Candidate.getRedshift candidate))
           (InteractionState.channel interaction).
Proof.
  intros Ht Hne Hlo Hhi Hall.
  pose proof (setNextInteraction_samples self candidate interaction rng
                pdModes Ht Hne (inside_not_outside _ _ _ Hlo Hhi)) as Hcall.
  simpl in Hcall. rewrite selectLoop_all_greater in Hcall by exact Hall.
  eexists. split; [exact Hcall|]. by simpl.
Qed.

(** Two channels that sample the same distance, not above the distance
    held at the start: the loop ends holding the second. *)
Lemma selectLoop_tie lg m1 m2 st rng d :
  samplePath env lg m1 rng = d ->
  samplePath env lg m2 (S rng) = d ->
  is_nan d = false ->
  (d >? InteractionState.distance st) = false ->
  (selectLoop env lg [m1; m2] st rng).1
  = InteractionState.make d (PDMode.channel m2).
Proof.
  intros H1 H2 Hnum Hle.
  rewrite selectLoop_cons, H1, Hle, selectLoop_cons, H2. simpl.
  by rewrite (leb_not_gtb _ _ (leb_refl _ Hnum)).
Qed.

End Selector.

(** C2 (counterexample).  Two channels with equal rate curves and equal
    draws sample equal distances; the claim keeps the first-seen channel
    100000, the call holds the later channel 10000. *)
Lemma selectInteraction_tie_keeps_later_channel :
  let env := Sample.env [Fin (1 # 2); Fin (1 # 2)] in
  let m1 := recordOf env (Sample.line 2 2 100000 (Fin 1)) in
  let m2 := recordOf env (Sample.line 2 2 10000 (Fin 1)) in
  let self :=
    Sample.object
      (Sample.load [Sample.line 2 2 100000 (Fin 1);
                    Sample.line 2 2 10000 (Fin 1)]) in
  let candidate := Sample.nucleus 4 2 (of_int (10 ^ 10)) zero in
  let d := samplePath env (lgOf env candidate) m1 0 in
  channelsOf self candidate = Some [m1; m2]
  /\ lgOf env candidate = of_int 10
  /\ samplePaths env (lgOf env candidate) [m1; m2] 0 = [d; d]
  /\ is_finite d = true
  /\ ((fun r => (returned r, InteractionState.channel (interaction' r)))
        <$> setNextInteraction env self candidate (defaultInteraction env) 0)
     = Some (true, PDMode.channel m2)
  /\ PDMode.channel m2 <> PDMode.channel m1.
Proof. vm_compute. repeat split; try reflexivity. discriminate. Qed.

(** C2 (amended).  For every call with in-range lg whose sampled free
    paths d_i = -ln(u_i) / r_i (one fresh draw per channel, in channel
    order) are numbers, at least one of them not above the largest finite
    double, the selected channel is one whose sampled free path is
    smallest; when several channels sample the minimal distance, the
    last-seen one is kept (a channel replaces the current best unless
    its sample is strictly greater). *)
Theorem selectInteraction_keeps_last_minimum (env : Env)
    (self : PhotoDisintegration) (candidate : Candidate.t)
    (interaction : InteractionState.t) (rng : nat)
    (pdModes : list PDMode.t) :
  channelsOf self candidate = Some pdModes ->
  (of_int 6 <? lgOf env candidate) = true ->
  (lgOf env candidate <? of_int 14) = true ->
  Forall (fun d => is_nan d = false)
    (samplePaths env (lgOf env candidate) pdModes rng) ->
  Exists (fun d => (d <=? Double.max) = true)
    (samplePaths env (lgOf env candidate) pdModes rng) ->
  exists r k m d,
    setNextInteraction env self candidate interaction rng = Some r
    /\ returned r = true
    /\ rng' r = (rng + length pdModes)%nat
    /\ pdModes !! k = Some m
    /\ samplePaths env (lgOf env candidate) pdModes rng !! k = Some d
    /\ InteractionState.channel (interaction' r) = PDMode.channel m
    /\ (forall j d',
          samplePaths env (lgOf env candidate) pdModes rng !! j = Some d' ->
          (d <=? d') = true)
    /\ (forall j d',
          (k < j)%nat ->
          samplePaths env (lgOf env candidate) pdModes rng !! j = Some d' ->
          (d <? d') = true).
Proof.
  intros Ht Hlo Hhi Hnum Hex.
  destruct (setNextInteraction_minimum env self candidate interaction rng
              pdModes Ht Hlo Hhi Hnum Hex)
    as (r & k & m & d & Hcall & Hret & Hrng & Hk & Hd & Hst & Hmin & Hlater).
  exists r, k, m, d. rewrite Hst. simpl. repeat split; done.
Qed.

(** The amended statement at two channels of helium-4 with draws 1/2 and
    1/4. *)
Lemma selectInteraction_keeps_last_minimum_witness :
  let env := Sample.env [Fin (1 # 2); Fin (1 # 4)] in
  let pdModes :=
    [recordOf env (Sample.line 2 2 100000 (Fin 1));
     recordOf env (Sample.line 2 2 10000 (Fin 1))] in
  let self :=
    Sample.object
      (Sample.load [Sample.line 2 2 100000 (Fin 1);
                    Sample.line 2 2 10000 (Fin 1)]) in
  let candidate := Sample.nucleus 4 2 (of_int (10 ^ 10)) zero in
  exists r k m d,
    setNextInteraction env self candidate (defaultInteraction env) 0 = Some r
    /\ returned r = true
    /\ rng' r = (0 + length pdModes)%nat
    /\ pdModes !! k = Some m
    /\ samplePaths env (lgOf env candidate) pdModes 0 !! k = Some d
    /\ InteractionState.channel (interaction' r) = PDMode.channel m
    /\ (forall j d',
          samplePaths env (lgOf env candidate) pdModes 0 !! j = Some d' ->
          (d <=? d') = true)
    /\ (forall j d',
          (k < j)%nat ->
          samplePaths env (lgOf env candidate) pdModes 0 !! j = Some d' ->
          (d <? d') = true).
Proof.
  apply (selectInteraction_keeps_last_minimum
           (Sample.env [Fin (1 # 2); Fin (1 # 4)])).
  - vm_compute. reflexivity.
  - vm_compute. reflexivity.
  - vm_compute. reflexivity.
  - vm_compute. repeat constructor.
  - apply Exists_cons_hd. vm_compute. reflexivity.
Defined.

(** C6.  For a nuclide whose slot the table holds and a number lg, the
    call returns false exactly when the channel list of (Z, N = A - Z) is
    empty or lg is outside the open interval (6, 14); it then stores no
    pending interaction, leaves the interaction argument alone and draws
    nothing.  lg = 6 and lg = 14 are outside.  When it returns true (lg
    strictly between the bounds, the list not empty), the pending
    interaction it returns is stored on the candidate under the
    description of the module. *)
Theorem selectInteraction_range_check (env : Env)
    (self : PhotoDisintegration) (candidate : Candidate.t)
    (interaction : InteractionState.t) (rng : nat)
    (pdModes : list PDMode.t) :
  channelsOf self candidate = Some pdModes ->
  is_nan (lgOf env candidate) = false ->
  exists r,
    setNextInteraction env self candidate interaction rng = Some r
    /\ (returned r = false <->
        pdModes = []
        \/ ~ ((of_int 6 <? lgOf env candidate) = true
              /\ (lgOf env candidate <? of_int 14) = true))
    /\ (returned r = false ->
        candidate' r = candidate /\ interaction' r = interaction
        /\ rng' r = rng)
    /\ (returned r = true ->
        Candidate.getInteractionState (description self) (candidate' r)
          = Some (interaction' r))
    /\ (lgOf env candidate == of_int 6 \/ lgOf env candidate == of_int 14 ->
        returned r = false).
Proof.
  intros Ht Hnum.
  pose proof (outside_iff (lgOf env candidate) (of_int 6) (of_int 14)
                Hnum eq_refl eq_refl) as Hout.
  destruct (decide (pdModes = [])) as [Hnil|Hne];
    [|destruct ((lgOf env candidate <=? of_int 6)
                || (lgOf env candidate >=? of_int 14)) eqn:Hcheck].
  - eexists. split.
    { apply (setNextInteraction_gives_up env _ _ _ _ pdModes Ht). by left. }
    simpl. repeat split; try done. by left.
  - eexists. split.
    { apply (setNextInteraction_gives_up env _ _ _ _ pdModes Ht). by right. }
    simpl. repeat split; try done. intros _. right. by apply Hout.
  - eexists. split.
    { by apply (setNextInteraction_samples env _ _ _ _ pdModes Ht). }
    simpl. repeat split; try done.
    + intros [Hnil|Hn]; [done|]. apply Hout in Hn. congruence.
    + intros _. unfold Candidate.getInteractionState. simpl.
      apply lookup_insert_eq.
    + apply orb_false_iff in Hcheck as [H6 H14].
      intros [He|He].
      * rewrite (leb_eqv_l _ _ He Hnum) in H6. done.
      * rewrite (geb_eqv_l _ _ He Hnum) in H14. done.
Qed.

(** The statement at iron-56 with one channel and lg = 10. *)
Lemma selectInteraction_range_check_witness :
  let env := Sample.env [Fin (1 # 2)] in
  let pdModes := [recordOf env (Sample.line 26 30 10000 (Fin 1))] in
  let self :=
    Sample.object (Sample.load [Sample.line 26 30 10000 (Fin 1)]) in
  let candidate := Sample.nucleus 56 26 (of_int (10 ^ 10)) zero in
  let interaction := defaultInteraction env in
  exists r,
    setNextInteraction env self candidate interaction 0 = Some r
    /\ (returned r = false <->
        pdModes = []
        \/ ~ ((of_int 6 <? lgOf env candidate) = true
              /\ (lgOf env candidate <? of_int 14) = true))
    /\ (returned r = false ->
        candidate' r = candidate /\ interaction' r = interaction
        /\ rng' r = 0%nat)
    /\ (returned r = true ->
        Candidate.getInteractionState (description self) (candidate' r)
          = Some (interaction' r))
    /\ (lgOf env candidate == of_int 6 \/ lgOf env candidate == of_int 14 ->
        returned r = false).
Proof.
  apply (selectInteraction_range_check (Sample.env [Fin (1 # 2)])).
  - vm_compute. reflexivity.
  - vm_compute. reflexivity.
Defined.

(** C7 (counterexample).  One channel whose rate is zero at lg samples
    an infinite free path, which is the minimum of the samples; the
    recorded distance is not that minimum divided by the scaling factor
    and multiplied by (1 + z), but the largest finite double so
    scaled. *)
Lemma selectInteraction_distance_not_scaled_minimum :
  let env := Sample.env [Fin (1 # 2)] in
  let m := recordOf env (Sample.line 2 2 100000 (Fin 0)) in
  let self :=
    Sample.object (Sample.load [Sample.line 2 2 100000 (Fin 0)]) in
  let z := Fin 1 in
  let candidate := Sample.nucleus 4 2 (of_int (5 * 10 ^ 9)) z in
  let ds := samplePaths env (lgOf env candidate) [m] 0 in
  let scale := photonFieldScaling env (photonField self) z in
  channelsOf self candidate = Some [m]
  /\ lgOf env candidate = of_int 10
  /\ ds = [PInf]
  /\ isMinimumOf PInf ds
  /\ exists r,
       setNextInteraction env self candidate (defaultInteraction env) 0
         = Some r
       /\ returned r = true
       /\ ~ (InteractionState.distance (interaction' r)
             == PInf / scale * (one + z))
       /\ InteractionState.distance (interaction' r)
          == Double.max / scale * (one + z).
Proof.
  split; [vm_compute; reflexivity|].
  split; [vm_compute; reflexivity|].
  split; [vm_compute; reflexivity|].
  split.
  - replace (samplePaths _ _ _ _) with [PInf] by (vm_compute; reflexivity).
    split; [apply list_elem_of_here|].
    intros d' Hd'. apply list_elem_of_singleton in Hd'. by subst.
  - eexists. split; [vm_compute; reflexivity|].
    split; [reflexivity|]. split.
    + vm_compute. tauto.
    + vm_compute. reflexivity.
Qed.

(** C7 (amended).  For every call that returns a candidate and in which
    the sampled free paths are numbers, at least one of them not above
    the largest finite double, the recorded distance is the minimum
    sampled free path divided by scale(photonFieldKind, z) and then
    multiplied by (1 + z); for finite values and a scaling factor other
    than zero this is the minimum multiplied by (1 + z) / scale(z). *)
Theorem selectInteraction_distance_scaling (env : Env)
    (self : PhotoDisintegration) (candidate : Candidate.t)
    (interaction : InteractionState.t) (rng : nat)
    (pdModes : list PDMode.t) :
  channelsOf self candidate = Some pdModes ->
  (of_int 6 <? lgOf env candidate) = true ->
  (lgOf env candidate <? of_int 14) = true ->
  Forall (fun d => is_nan d = false)
    (samplePaths env (lgOf env candidate) pdModes rng) ->
  Exists (fun d => (d <=? Double.max) = true)
    (samplePaths env (lgOf env candidate) pdModes rng) ->
  exists r dmin,
    setNextInteraction env self candidate interaction rng = Some r
    /\ returned r = true
    /\ isMinimumOf dmin (samplePaths env (lgOf env candidate) pdModes rng)
    /\ InteractionState.distance (interaction' r) =
         dmin
         / photonFieldScaling env (photonField self)
             (Candidate.getRedshift candidate)
         * (one + Candidate.getRedshift candidate)
    /\ (forall a s zq : Q,
          dmin = Fin a ->
          photonFieldScaling env (photonField self)
            (Candidate.getRedshift candidate) = Fin s ->
          ~ (s == 0)%Q ->
          Candidate.getRedshift candidate = Fin zq ->
          InteractionState.distance (interaction' r)
          == dmin * ((one + Candidate.getRedshift candidate)
                     / photonFieldScaling env (photonField self)
                         (Candidate.getRedshift candidate))).
Proof.
  intros Ht Hlo Hhi Hnum Hex.
  destruct (setNextInteraction_minimum env self candidate interaction rng
              pdModes Ht Hlo Hhi Hnum Hex)
    as (r & k & m & d & Hcall & Hret & Hrng & Hk & Hd & Hst & Hmin & Hlater).
  exists r, d. rewrite Hst. simpl. repeat split; try done.
  - by eapply list_elem_of_lookup_2.
  - intros d' Hd'. apply list_elem_of_lookup_1 in Hd' as [j Hj].
    by eapply Hmin.
  - intros a s zq -> -> Hs ->.
    rewrite !not_eqv_zero_div by done. simpl. field. exact Hs.
Qed.

(** The amended statement at two channels of helium-4 at redshift 1. *)
Lemma selectInteraction_distance_scaling_witness :
  let env := Sample.env [Fin (1 # 2); Fin (1 # 4)] in
  let pdModes :=
    [recordOf env (Sample.line 2 2 100000 (Fin 1));
     recordOf env (Sample.line 2 2 10000 (Fin 3))] in
  let self :=
    Sample.object
      (Sample.load [Sample.line 2 2 100000 (Fin 1);
                    Sample.line 2 2 10000 (Fin 3)]) in
  let candidate := Sample.nucleus 4 2 (of_int (5 * 10 ^ 9)) (Fin 1) in
  exists r dmin,
    setNextInteraction env self candidate (defaultInteraction env) 0 = Some r
    /\ returned r = true
    /\ isMinimumOf dmin (samplePaths env (lgOf env candidate) pdModes 0)
    /\ InteractionState.distance (interaction' r) =
         dmin
         / photonFieldScaling env (photonField self)
             (Candidate.getRedshift candidate)
         * (one + Candidate.getRedshift candidate)
    /\ (forall a s zq : Q,
          dmin = Fin a ->
          photonFieldScaling env (photonField self)
            (Candidate.getRedshift candidate) = Fin s ->
          ~ (s == 0)%Q ->
          Candidate.getRedshift candidate = Fin zq ->
          InteractionState.distance (interaction' r)
          == dmin * ((one + Candidate.getRedshift candidate)
                     / photonFieldScaling env (photonField self)
                         (Candidate.getRedshift candidate))).
Proof.
  apply (selectInteraction_distance_scaling
           (Sample.env [Fin (1 # 2); Fin (1 # 4)])).
  - vm_compute. reflexivity.
  - vm_compute. reflexivity.
  - vm_compute. reflexivity.
  - vm_compute. repeat constructor.
  - apply Exists_cons_hd. vm_compute. reflexivity.
Defined.

(** C10 (the behaviour of the code at the input that separates it from
    the claim).  Iron-56 with two channels whose rates are zero at
    lg = 10: both sampled free paths are infinite, so neither is at most
    the sentinel the loop starts from and no channel is ever assigned.
    The call returns true all the same, after two draws; the channel of
    the pending interaction is the one the caller's interaction held on
    entry (0 for a default-constructed one), which is the code of no
    record of the nuclide, and its distance is the scaled sentinel, not
    the scaled minimum of the samples. *)
Theorem selectInteraction_zero_rates_keep_stale_channel :
  let env := Sample.env [Fin (1 # 2); Fin (1 # 4)] in
  let m1 := recordOf env (Sample.line 26 30 100000 (Fin 0)) in
  let m2 := recordOf env (Sample.line 26 30 10000 (Fin 0)) in
  let self :=
    Sample.object
      (Sample.load [Sample.line 26 30 100000 (Fin 0);
                    Sample.line 26 30 10000 (Fin 0)]) in
  let candidate := Sample.nucleus 56 26 (of_int (10 ^ 10)) zero in
  let scale :=
    photonFieldScaling env (photonField self)
      (Candidate.getRedshift candidate) in
  channelsOf self candidate = Some [m1; m2]
  /\ lgOf env candidate = of_int 10
  /\ rateAt env (lgOf env candidate) m1 == zero
  /\ rateAt env (lgOf env candidate) m2 == zero
  /\ samplePaths env (lgOf env candidate) [m1; m2] 0 = [PInf; PInf]
  /\ exists r,
       setNextInteraction env self candidate (defaultInteraction env) 0
         = Some r
       /\ returned r = true
       /\ rng' r = 2%nat
       /\ InteractionState.channel (interaction' r)
          = InteractionState.channel (defaultInteraction env)
       /\ ~ (InteractionState.channel (interaction' r)
             ∈ PDMode.channel <$> [m1; m2])
       /\ InteractionState.distance (interaction' r)
          == Double.max / scale * (one + Candidate.getRedshift candidate)
       /\ Candidate.getInteractionState (description self) (candidate' r)
          = Some (interaction' r).
Proof.
  split; [vm_compute; reflexivity|].
  split; [vm_compute; reflexivity|].
  split; [vm_compute; reflexivity|].
  split; [vm_compute; reflexivity|].
  split; [vm_compute; reflexivity|].
  eexists. split; [vm_compute; reflexivity|].
  split; [reflexivity|]. split; [reflexivity|]. split; [reflexivity|].
  split.
  - simpl. intros Hin. repeat apply elem_of_cons in Hin as [Hin|Hin];
      try discriminate. by apply elem_of_nil in Hin.
  - split; [vm_compute; reflexivity|]. vm_compute. reflexivity.
Qed.

(** ** The executor *)

Section Executor.

Variable env : Env.

Lemma digit_bounds value d :
  (0 <= value)%Z -> (0 < d)%Z -> (0 <= digit value d <= 9)%Z.
Proof.
  intros Hv Hd. unfold digit.
  pose proof (Z.quot_pos value d Hv Hd).
  pose proof (Z.rem_bound_pos (value ÷ d) 10). lia.
Qed.

Lemma rounds_digit n : (0 <= n <= 9)%Z -> rounds n = Z.to_nat n.
Proof. intros Hn. unfold rounds. rewrite Z.mod_small; lia. Qed.

(** The counts of a channel code that is not negative are decimal
    digits. *)
Lemma decode_bounds channel :
  (0 <= channel)%Z ->
  let n := decode channel in
  (0 <= nNeutron n <= 9 /\ 0 <= nProton n <= 9 /\ 0 <= nH2 n <= 9
   /\ 0 <= nH3 n <= 9 /\ 0 <= nHe3 n <= 9 /\ 0 <= nHe4 n <= 9)%Z.
Proof. intros Hc. simpl. repeat split; apply digit_bounds; lia. Qed.

Lemma addSecondaries_spec n i e c :
  addSecondaries n i e c =
    Candidate.make (Candidate.current c) (Candidate.redshift c)
      (Candidate.active c)
      (Candidate.secondaries c
       ++ replicate (rounds n) (ParticleState.make i e))
      (Candidate.interactionStates c).
Proof.
  unfold addSecondaries. induction (rounds n) as [|k IH].
  - simpl. rewrite app_nil_r. by destruct c.
  - rewrite replicate_S_end, Nat.iter_succ, IH.
    unfold Candidate.addSecondary. simpl. by rewrite <- app_assoc.
Qed.

Lemma addSecondaries_digit n i e c :
  (0 <= n <= 9)%Z ->
  addSecondaries n i e c =
    Candidate.make (Candidate.current c) (Candidate.redshift c)
      (Candidate.active c)
      (Candidate.secondaries c
       ++ replicate (Z.to_nat n) (ParticleState.make i e))
      (Candidate.interactionStates c).
Proof.
  intros Hn. by rewrite addSecondaries_spec, rounds_digit.
Qed.

(** The candidate the executor leaves, field by field, when the counts
    are digits. *)
Lemma performInteraction_spec self candidate :
  (0 <= InteractionState.channel (pendingOf env self candidate))%Z ->
  let n := decode (InteractionState.channel (pendingOf env self candidate)) in
  let A_ := ParticleState.getMassNumber (Candidate.current candidate) in
  let Z_ := ParticleState.getChargeNumber (Candidate.current candidate) in
  let EpA :=
    ParticleState.getEnergy (Candidate.current candidate) / of_int A_ in
  performInteraction env self candidate =
    Candidate.make
      (if (A_ + dA_of n >? 0)%Z
       then ParticleState.make (getNucleusId (A_ + dA_of n) (Z_ + dZ_of n))
              (EpA * of_int (A_ + dA_of n))
       else Candidate.current candidate)
      (Candidate.redshift candidate)
      (if (A_ + dA_of n >? 0)%Z then Candidate.active candidate else false)
      (Candidate.secondaries candidate ++ secondariesOf n EpA)
      ∅.
Proof.
  intros Hc n A_ Z_ EpA.
  destruct (decode_bounds _ Hc) as (H1 & H2 & H3 & H4 & H5 & H6).
  fold n in H1, H2, H3, H4, H5, H6.
  unfold performInteraction. fold (pendingOf env self candidate).
  cbv zeta. fold n. rewrite !addSecondaries_digit by assumption.
  cbn [Candidate.current Candidate.redshift Candidate.active
       Candidate.secondaries Candidate.interactionStates
       Candidate.clearInteractionStates].
  fold A_ Z_ EpA. unfold secondariesOf. rewrite <- !app_assoc.
  by destruct (A_ + dA_of n >? 0)%Z.
Qed.

Lemma emitted_performInteraction self candidate :
  (0 <= InteractionState.channel (pendingOf env self candidate))%Z ->
  emitted candidate (performInteraction env self candidate) =
    secondariesOf
      (decode (InteractionState.channel (pendingOf env self candidate)))
      (ParticleState.getEnergy (Candidate.current candidate)
       / of_int (ParticleState.getMassNumber (Candidate.current candidate))).
Proof.
  intros Hc. rewrite (performInteraction_spec _ _ Hc).
  unfold emitted. simpl. apply drop_app_length.
Qed.

Lemma sumMassNumbers_app l1 l2 :
  sumMassNumbers (l1 ++ l2) = (sumMassNumbers l1 + sumMassNumbers l2)%Z.
Proof.
  unfold sumMassNumbers. rewrite fmap_app, foldr_app.
  induction (ParticleState.getMassNumber <$> l1); simpl; lia.
Qed.

Lemma sumChargeNumbers_app l1 l2 :
  sumChargeNumbers (l1 ++ l2)
  = (sumChargeNumbers l1 + sumChargeNumbers l2)%Z.
Proof.
  unfold sumChargeNumbers. rewrite fmap_app, foldr_app.
  induction (ParticleState.getChargeNumber <$> l1); simpl; lia.
Qed.

Lemma sumMassNumbers_replicate k p :
  sumMassNumbers (replicate k p)
  = (Z.of_nat k * ParticleState.getMassNumber p)%Z.
Proof.
  unfold sumMassNumbers. induction k as [|k IH]; [done|].
  cbn [replicate fmap list_fmap foldr]. rewrite IH. lia.
Qed.

Lemma sumChargeNumbers_replicate k p :
  sumChargeNumbers (replicate k p)
  = (Z.of_nat k * ParticleState.getChargeNumber p)%Z.
Proof.
  unfold sumChargeNumbers. induction k as [|k IH]; [done|].
  cbn [replicate fmap list_fmap foldr]. rewrite IH. lia.
Qed.

(** Adding [k] copies of a finite value to a finite accumulator. *)
Lemma fold_add_replicate k (x : Q) : forall acc : Q,
  exists q,
    fold_left Double.add (replicate k (Fin x)) (Fin acc) = Fin q
    /\ (q == acc + inject_Z (Z.of_nat k) * x)%Q.
Proof.
  induction k as [|k IH]; intros acc.
  - exists acc. split; [done|]. simpl. ring.
  - destruct (IH (acc + x)%Q) as (q & Hq & He).
    exists q. split; [exact Hq|]. rewrite He.
    rewrite Nat2Z.inj_succ. unfold Z.succ. rewrite inject_Z_plus. ring.
Qed.

(** The nucleus and the active flag the executor leaves, for every
    channel code. *)
Lemma performInteraction_current_active self candidate :
  let n := decode (InteractionState.channel (pendingOf env self candidate)) in
  let A_ := ParticleState.getMassNumber (Candidate.current candidate) in
  let Z_ := ParticleState.getChargeNumber (Candidate.current candidate) in
  let EpA :=
    ParticleState.getEnergy (Candidate.current candidate) / of_int A_ in
  let after := performInteraction env self candidate in
  Candidate.current after =
    (if (A_ + dA_of n >? 0)%Z
     then ParticleState.make (getNucleusId (A_ + dA_of n) (Z_ + dZ_of n))
            (EpA * of_int (A_ + dA_of n))
     else Candidate.current candidate)
  /\ Candidate.active after =
       (if (A_ + dA_of n >? 0)%Z then Candidate.active candidate
        else false).
Proof.
  intros n A_ Z_ EpA after. subst after.
  unfold performInteraction. fold (pendingOf env self candidate).
  cbv zeta. fold n. rewrite !addSecondaries_spec.
  cbn [Candidate.current Candidate.redshift Candidate.active
       Candidate.secondaries Candidate.interactionStates
       Candidate.clearInteractionStates].
  fold A_ Z_ EpA. by destruct (A_ + dA_of n >? 0)%Z.
Qed.

End Executor.

(** C5.  For every executed channel code (a non-negative integer), the
    six counts are the decimal digits of the code at the places 100000,
    10000, 1000, 100, 10 and 1; dA and dZ are the negated weighted sums
    of the counts; the secondaries appended are that many neutrons
    (1,0), protons (1,1), deuterons (2,1), tritons (3,1), He-3 (3,2) and
    He-4 (4,2); and mass number and charge number are conserved:
    A' + sum of the secondary mass numbers = A and (Z + dZ) + sum of the
    secondary charge numbers = Z, where (A', Z + dZ) is the identity
    the nucleus takes when A' > 0. *)
Theorem performInteraction_conserves_nucleons (env : Env)
    (self : PhotoDisintegration) (candidate : Candidate.t) :
  (0 <= InteractionState.channel (pendingOf env self candidate))%Z ->
  let channel := InteractionState.channel (pendingOf env self candidate) in
  let n := decode channel in
  let A_ := ParticleState.getMassNumber (Candidate.current candidate) in
  let Z_ := ParticleState.getChargeNumber (Candidate.current candidate) in
  let after := performInteraction env self candidate in
  let out := emitted candidate after in
  (nNeutron n = (channel / 100000) mod 10
   /\ nProton n = (channel / 10000) mod 10
   /\ nH2 n = (channel / 1000) mod 10
   /\ nH3 n = (channel / 100) mod 10
   /\ nHe3 n = (channel / 10) mod 10
   /\ nHe4 n = (channel / 1) mod 10)%Z
  /\ dA_of n = (- (nNeutron n + nProton n + 2 * nH2 n + 3 * nH3 n
                   + 3 * nHe3 n + 4 * nHe4 n))%Z
  /\ dZ_of n = (- (nProton n + nH2 n + nH3 n + 2 * nHe3 n + 2 * nHe4 n))%Z
  /\ Candidate.secondaries after = Candidate.secondaries candidate ++ out
  /\ ParticleState.id <$> out =
       replicate (Z.to_nat (nNeutron n)) (getNucleusId 1 0)
       ++ replicate (Z.to_nat (nProton n)) (getNucleusId 1 1)
       ++ replicate (Z.to_nat (nH2 n)) (getNucleusId 2 1)
       ++ replicate (Z.to_nat (nH3 n)) (getNucleusId 3 1)
       ++ replicate (Z.to_nat (nHe3 n)) (getNucleusId 3 2)
       ++ replicate (Z.to_nat (nHe4 n)) (getNucleusId 4 2)
  /\ (A_ + dA_of n + sumMassNumbers out = A_)%Z
  /\ (Z_ + dZ_of n + sumChargeNumbers out = Z_)%Z
  /\ ((A_ + dA_of n > 0)%Z ->
      ParticleState.id (Candidate.current after)
      = getNucleusId (A_ + dA_of n) (Z_ + dZ_of n)).
Proof.
  intros Hc channel n A_ Z_ after out.
  destruct (decode_bounds _ Hc) as (H1 & H2 & H3 & H4 & H5 & H6).
  fold channel in Hc, H1, H2, H3, H4, H5, H6.
  fold n in H1, H2, H3, H4, H5, H6.
  assert (Hout : out = secondariesOf n
            (ParticleState.getEnergy (Candidate.current candidate)
             / of_int A_)).
  { subst out after. by rewrite emitted_performInteraction. }
  split.
  { subst n. unfold decode, digit. simpl.
    repeat split;
      (rewrite Z.quot_div_nonneg, Z.rem_mod_nonneg;
       [reflexivity| |lia|lia|lia]; apply Z.div_pos; lia). }
  split; [unfold dA_of; lia|]. split; [unfold dZ_of; lia|].
  split.
  { rewrite Hout. subst after.
    by rewrite (performInteraction_spec env _ _ Hc). }
  split.
  { rewrite Hout. unfold secondariesOf.
    by rewrite !fmap_app, !fmap_replicate. }
  split.
  { rewrite Hout. unfold secondariesOf.
    rewrite !sumMassNumbers_app, !sumMassNumbers_replicate.
    unfold dA_of, ParticleState.getMassNumber.
    cbn [ParticleState.id massNumber]. lia. }
  split.
  { rewrite Hout. unfold secondariesOf.
    rewrite !sumChargeNumbers_app, !sumChargeNumbers_replicate.
    unfold dZ_of, ParticleState.getChargeNumber.
    cbn [ParticleState.id chargeNumber]. lia. }
  intros Hpos. subst after.
  rewrite (performInteraction_spec env _ _ Hc). simpl.
  fold channel n A_ Z_.
  destruct (Z.gtb_spec (A_ + dA_of n) 0); [done|lia].
Qed.

(** The statement at iron-56 with the pending channel 10000, one
    proton. *)
Lemma performInteraction_conserves_nucleons_witness :
  let env := Sample.env [] in
  let self := Sample.object [] in
  let candidate :=
    Candidate.setInteractionState (description self)
      (InteractionState.make one 10000)
      (Sample.nucleus 56 26 (of_int (10 ^ 10)) zero) in
  let after := performInteraction env self candidate in
  let out := emitted candidate after in
  let n := decode 10000 in
  (nNeutron n = (10000 / 100000) mod 10
   /\ nProton n = (10000 / 10000) mod 10
   /\ nH2 n = (10000 / 1000) mod 10
   /\ nH3 n = (10000 / 100) mod 10
   /\ nHe3 n = (10000 / 10) mod 10
   /\ nHe4 n = (10000 / 1) mod 10)%Z
  /\ dA_of n = (- (nNeutron n + nProton n + 2 * nH2 n + 3 * nH3 n
                   + 3 * nHe3 n + 4 * nHe4 n))%Z
  /\ dZ_of n = (- (nProton n + nH2 n + nH3 n + 2 * nHe3 n + 2 * nHe4 n))%Z
  /\ Candidate.secondaries after = Candidate.secondaries candidate ++ out
  /\ ParticleState.id <$> out =
       replicate (Z.to_nat (nNeutron n)) (getNucleusId 1 0)
       ++ replicate (Z.to_nat (nProton n)) (getNucleusId 1 1)
       ++ replicate (Z.to_nat (nH2 n)) (getNucleusId 2 1)
       ++ replicate (Z.to_nat (nH3 n)) (getNucleusId 3 1)
       ++ replicate (Z.to_nat (nHe3 n)) (getNucleusId 3 2)
       ++ replicate (Z.to_nat (nHe4 n)) (getNucleusId 4 2)
  /\ (56 + dA_of n + sumMassNumbers out = 56)%Z
  /\ (26 + dZ_of n + sumChargeNumbers out = 26)%Z
  /\ ((56 + dA_of n > 0)%Z ->
      ParticleState.id (Candidate.current after)
      = getNucleusId (56 + dA_of n) (26 + dZ_of n)).
Proof.
  apply (performInteraction_conserves_nucleons (Sample.env [])
           (Sample.object [])
           (Candidate.setInteractionState "PhotoDisintegration: CMB"
              (InteractionState.make one 10000)
              (Sample.nucleus 56 26 (of_int (10 ^ 10)) zero))).
  vm_compute. discriminate.
Defined.

(** C4.  For every execution whose channel code (a non-negative
    integer) gives A' = A + dA > 0, with a finite current energy: the
    nucleus keeps EpA * A', every secondary carries EpA times its mass
    number, and EpA * A' plus the sum of the secondary energies equals
    EpA * A, which is the energy before the call; EpA = energy / A is
    taken before the nucleus is changed.  Arithmetic is exact. *)
Theorem performInteraction_conserves_energy (env : Env)
    (self : PhotoDisintegration) (candidate : Candidate.t) (e : Q) :
  (0 <= InteractionState.channel (pendingOf env self candidate))%Z ->
  ParticleState.getEnergy (Candidate.current candidate) = Fin e ->
  (ParticleState.getMassNumber (Candidate.current candidate)
   + dA_of (decode (InteractionState.channel (pendingOf env self candidate)))
   > 0)%Z ->
  let n := decode (InteractionState.channel (pendingOf env self candidate)) in
  let A_ := ParticleState.getMassNumber (Candidate.current candidate) in
  let EpA := Fin e / of_int A_ in
  let after := performInteraction env self candidate in
  let out := emitted candidate after in
  ParticleState.getEnergy (Candidate.current after)
  = EpA * of_int (A_ + dA_of n)
  /\ Forall (fun s => ParticleState.getEnergy s
                      == EpA * of_int (ParticleState.getMassNumber s)) out
  /\ ParticleState.getEnergy (Candidate.current after) + sumEnergies out
     == EpA * of_int A_
  /\ EpA * of_int A_ == Fin e.
Proof.
  intros Hc He Hpos n A_ EpA after out.
  destruct (decode_bounds _ Hc) as (H1 & H2 & H3 & H4 & H5 & H6).
  fold n in Hpos, H1, H2, H3, H4, H5, H6. fold A_ in Hpos.
  assert (HA : ~ (inject_Z A_ == 0)%Q).
  { intros H0. apply (inject_Z_injective A_ 0) in H0.
    unfold dA_of in Hpos. lia. }
  assert (HEpA : EpA = Fin (e / inject_Z A_)).
  { unfold EpA, of_int. by apply not_eqv_zero_div. }
  assert (Hout : out = secondariesOf n EpA).
  { subst out after. rewrite emitted_performInteraction by done.
    fold n A_. by rewrite He. }
  assert (Hcur : ParticleState.getEnergy (Candidate.current after)
                 = EpA * of_int (A_ + dA_of n)).
  { subst after. rewrite (performInteraction_spec env _ _ Hc). simpl.
    fold n A_. destruct (Z.gtb_spec (A_ + dA_of n) 0); [|lia].
    simpl. by rewrite He. }
  clearbody out after EpA n. clearbody A_.
  split; [exact Hcur|]. split; [|split].
  - rewrite Hout, HEpA. unfold secondariesOf.
    repeat (apply Forall_app_2 || apply Forall_replicate);
      unfold ParticleState.getMassNumber; simpl; unfold inject_Z; ring.
  - rewrite Hcur, Hout, HEpA.
    unfold sumEnergies, Double.sum, secondariesOf, zero.
    rewrite !fmap_app, !fmap_replicate, !fold_left_app. simpl.
    set (q := (e / inject_Z A_)%Q).
    destruct (fold_add_replicate (Z.to_nat (nNeutron n)) q 0)
      as (q1 & -> & E1).
    destruct (fold_add_replicate (Z.to_nat (nProton n)) q q1)
      as (q2 & -> & E2).
    destruct (fold_add_replicate (Z.to_nat (nH2 n)) (q * inject_Z 2) q2)
      as (q3 & -> & E3).
    destruct (fold_add_replicate (Z.to_nat (nH3 n)) (q * inject_Z 3) q3)
      as (q4 & -> & E4).
    destruct (fold_add_replicate (Z.to_nat (nHe3 n)) (q * inject_Z 3) q4)
      as (q5 & -> & E5).
    destruct (fold_add_replicate (Z.to_nat (nHe4 n)) (q * inject_Z 4) q5)
      as (q6 & -> & E6).
    simpl. rewrite E6, E5, E4, E3, E2, E1.
    rewrite !Z2Nat.id by lia.
    unfold dA_of, Z.sub.
    rewrite ?inject_Z_plus, ?inject_Z_opp, ?inject_Z_mult.
    unfold q. field. exact HA.
  - rewrite HEpA. simpl. field. exact HA.
Qed.

(** The statement at iron-56 of energy 56 * 10^10 with the pending
    channel 10000: the proton takes 1/56 of the energy and the remnant
    55/56 of it. *)
Lemma performInteraction_conserves_energy_witness :
  let env := Sample.env [] in
  let self := Sample.object [] in
  let candidate :=
    Candidate.setInteractionState (description self)
      (InteractionState.make one 10000)
      (Sample.nucleus 56 26 (of_int (10 ^ 10)) zero) in
  let e := (inject_Z 56 * inject_Z (10 ^ 10))%Q in
  let EpA := Fin e / of_int 56 in
  let after := performInteraction env self candidate in
  let out := emitted candidate after in
  ParticleState.getEnergy (Candidate.current after)
  = EpA * of_int (56 + dA_of (decode 10000))
  /\ Forall (fun s => ParticleState.getEnergy s
                      == EpA * of_int (ParticleState.getMassNumber s)) out
  /\ ParticleState.getEnergy (Candidate.current after) + sumEnergies out
     == EpA * of_int 56
  /\ EpA * of_int 56 == Fin e.
Proof.
  apply (performInteraction_conserves_energy (Sample.env [])
           (Sample.object [])
           (Candidate.setInteractionState "PhotoDisintegration: CMB"
              (InteractionState.make one 10000)
              (Sample.nucleus 56 26 (of_int (10 ^ 10)) zero))
           (inject_Z 56 * inject_Z (10 ^ 10))%Q).
  - vm_compute. discriminate.
  - reflexivity.
  - vm_compute. reflexivity.
Defined.

(** C9.  When the new mass number A' = A + dA is not positive, the
    executor clears the active flag and leaves the identity and the
    energy of the nucleus as they were; the call ends like any other
    (the function is total).  When A' > 0, the identity becomes
    (A', Z + dZ), the energy becomes EpA * A' and the active flag is
    left alone. *)
Theorem performInteraction_exhausted_or_remnant (env : Env)
    (self : PhotoDisintegration) (candidate : Candidate.t) :
  let n := decode (InteractionState.channel (pendingOf env self candidate)) in
  let A_ := ParticleState.getMassNumber (Candidate.current candidate) in
  let Z_ := ParticleState.getChargeNumber (Candidate.current candidate) in
  let EpA :=
    ParticleState.getEnergy (Candidate.current candidate) / of_int A_ in
  let after := performInteraction env self candidate in
  ((A_ + dA_of n <= 0)%Z ->
   Candidate.active after = false
   /\ Candidate.current after = Candidate.current candidate)
  /\ ((A_ + dA_of n > 0)%Z ->
      ParticleState.id (Candidate.current after)
      = getNucleusId (A_ + dA_of n) (Z_ + dZ_of n)
      /\ ParticleState.getEnergy (Candidate.current after)
         = EpA * of_int (A_ + dA_of n)
      /\ Candidate.active after = Candidate.active candidate).
Proof.
  intros n A_ Z_ EpA after.
  destruct (performInteraction_current_active env self candidate)
    as [Hcur Hact].
  fold n A_ Z_ EpA after in Hcur, Hact.
  rewrite Hcur, Hact.
  destruct (Z.gtb_spec (A_ + dA_of n) 0) as [Hgt|Hle];
    split; intros Hcase; try lia; done.
Qed.

(** ** The estimator *)

Section Estimator.

Variable env : Env.

(** The loop adds up the weighted rates from the left. *)
Lemma lossLoop_sum lg A_ pdModes : forall lossRate,
  lossLoop env lg A_ pdModes lossRate =
    fold_left Double.add (weightedRate env lg A_ <$> pdModes) lossRate.
Proof.
  induction pdModes as [|m rest IH]; intros lossRate; [done|].
  simpl. by rewrite IH.
Qed.

(** The loop does not look at the random generator. *)
Lemma lossLoop_withRand rand' lg A_ pdModes : forall lossRate,
  lossLoop (withRand rand' env) lg A_ pdModes lossRate =
    lossLoop env lg A_ pdModes lossRate.
Proof.
  induction pdModes as [|m rest IH]; intros lossRate; [done|].
  simpl. by rewrite IH.
Qed.

End Estimator.

(** C8.  For a nuclide whose slot the table holds and a number
    lg = log10(E / (mass * c^2)): when the channel list is empty or lg is
    outside (6, 14) the result is the largest finite double; when the
    list is not empty and lg is strictly inside (6, 14) the result is
    1 / sum_i (rate_i(lg) * ((n + p + 2 d2 + 3 d3 + 3 he3 + 4 he4)_i / A));
    and the result is the same whatever the random generator delivers
    (no draw is read, and the generator state is no part of the
    call). *)
Theorem energyLossLength_reciprocal_weighted_sum (env : Env)
    (self : PhotoDisintegration) (id : NucleusId) (E : double)
    (pdModes : list PDMode.t) :
  tableAt (pdTable self)
    (pdIndex (getChargeNumberFromNucleusId id)
       (getMassNumberFromNucleusId id - getChargeNumberFromNucleusId id))
    = Some pdModes ->
  is_nan (log10 env (E / (getNucleusMass env id * c_squared env))) = false ->
  let lg := log10 env (E / (getNucleusMass env id * c_squared env)) in
  let A_ := getMassNumberFromNucleusId id in
  (pdModes = []
   \/ ~ ((of_int 6 <? lg) = true /\ (lg <? of_int 14) = true) ->
   energyLossLength env self id E = Some Double.max)
  /\ (pdModes <> [] ->
      (of_int 6 <? lg) = true -> (lg <? of_int 14) = true ->
      energyLossLength env self id E =
        Some (one / Double.sum (weightedRate env lg A_ <$> pdModes)))
  /\ (forall m,
        weightedRate env lg A_ m =
          rateAt env lg m
          * (of_int (let n := decode (PDMode.channel m) in
                     nNeutron n + nProton n + 2 * nH2 n + 3 * nH3 n
                     + 3 * nHe3 n + 4 * nHe4 n)
             / of_int A_))
  /\ (forall rand',
        energyLossLength (withRand rand' env) self id E =
          energyLossLength env self id E).
Proof.
  intros Ht Hnum lg A_.
  pose proof (outside_iff lg (of_int 6) (of_int 14) Hnum eq_refl eq_refl)
    as Hout.
  split; [|split; [|split]].
  - intros Hcase. unfold energyLossLength. rewrite Ht.
    destruct pdModes as [|m rest]; [done|].
    destruct Hcase as [|Hcase]; [done|].
    cbn [length Nat.eqb]. fold lg. apply Hout in Hcase. by rewrite Hcase.
  - intros Hne Hlo Hhi. unfold energyLossLength. rewrite Ht.
    destruct pdModes as [|m rest]; [done|].
    cbn [length Nat.eqb]. fold lg.
    rewrite (inside_not_outside _ _ _ Hlo Hhi).
    by rewrite lossLoop_sum.
  - reflexivity.
  - intros rand'. unfold energyLossLength. simpl. rewrite Ht.
    destruct (length pdModes =? 0)%nat; [done|].
    fold lg. destruct ((lg <=? of_int 6) || (lg >=? of_int 14)); [done|].
    by rewrite lossLoop_withRand.
Qed.

(** The statement at iron-56 of energy 56 * 10^10 with one channel. *)
Lemma energyLossLength_reciprocal_weighted_sum_witness :
  let env := Sample.env [] in
  let pdModes := [recordOf env (Sample.line 26 30 10000 (Fin 1))] in
  let self :=
    Sample.object (Sample.load [Sample.line 26 30 10000 (Fin 1)]) in
  let id := getNucleusId 56 26 in
  let E := of_int (56 * 10 ^ 10) in
  let lg := log10 env (E / (getNucleusMass env id * c_squared env)) in
  (pdModes = []
   \/ ~ ((of_int 6 <? lg) = true /\ (lg <? of_int 14) = true) ->
   energyLossLength env self id E = Some Double.max)
  /\ (pdModes <> [] ->
      (of_int 6 <? lg) = true -> (lg <? of_int 14) = true ->
      energyLossLength env self id E =
        Some (one / Double.sum (weightedRate env lg 56 <$> pdModes)))
  /\ (forall m,
        weightedRate env lg 56 m =
          rateAt env lg m
          * (of_int (let n := decode (PDMode.channel m) in
                     nNeutron n + nProton n + 2 * nH2 n + 3 * nH3 n
                     + 3 * nHe3 n + 4 * nHe4 n)
             / of_int 56))
  /\ (forall rand',
        energyLossLength (withRand rand' env) self id E =
          energyLossLength env self id E).
Proof.
  apply (energyLossLength_reciprocal_weighted_sum (Sample.env [])
           (Sample.object (Sample.load [Sample.line 26 30 10000 (Fin 1)]))
           (getNucleusId 56 26) (of_int (56 * 10 ^ 10))).
  - vm_compute. reflexivity.
  - vm_compute. reflexivity.
Defined.

(** * Further properties of the code *)

(** ** The loader, line by line *)

Section LoaderFacts.

Variable env : Env.


Lemma tableAt_resize n (tbl : PDTable) i :
  (0 <= i < Z.of_nat n)%Z ->
  tableAt (tableResize n tbl) i = Some (default [] (tableAt tbl i)).
Proof.
  intros Hi. unfold tableAt, tableResize.
  destruct (Z.ltb_spec i 0); [lia|].
  destruct (decide (Z.to_nat i < length tbl)%nat) as [Hlt|Hge].
  - rewrite lookup_app_l by (rewrite length_take; lia).
    rewrite lookup_take_lt by lia.
    destruct (lookup_lt_is_Some_2 tbl (Z.to_nat i) Hlt) as [x Hx].
    by rewrite Hx.
  - rewrite lookup_app_r by (rewrite length_take; lia).
    rewrite length_take, (lookup_ge_None_2 tbl) by lia.
    simpl. apply lookup_replicate_2. lia.
Qed.

Lemma readLines_length lines : forall tbl tbl' : PDTable,
  readLines env lines tbl = Some tbl' -> length tbl' = length tbl.
Proof.
  induction lines as [|l lines IH]; intros tbl tbl'; simpl.
  - by intros [= <-].
  - destruct (isComment l); [apply IH|].
    destruct (tablePushBack tbl _ _) as [tbl1|] eqn:Hp; [|discriminate].
    intros Hr. rewrite (IH _ _ Hr). by eapply length_pushBack.
Qed.





End LoaderFacts.

(** X1.  Loading a data source whose record lines are all keyed inside
    the table ends normally, whatever the table held before: the table
    then has 31 * 57 slots, and every slot holds what it held before (the
    empty list for a slot the table did not have) followed by the records
    of the lines keyed to the slot, in file order.  In particular a
    second load into the same object appends every channel a second
    time. *)
Theorem init_appends_in_file_order (env : Env) (lines : list Line)
    (tbl : PDTable) :
  Forall (keyedInside (31 * 57)) lines ->
  exists tbl',
    init env (Some lines) tbl = Ok tbl'
    /\ length tbl' = (31 * 57)%nat
    /\ forall i,
         (0 <= i < 31 * 57)%Z ->
         tableAt tbl' i =
           Some (default [] (tableAt tbl i) ++ recordsAt env lines i).
Proof.
  intros Hall. unfold init.
  destruct (readLines_total env lines (tableResize (31 * 57) tbl))
    as [tbl' Hr].
  { by rewrite length_tableResize. }
  exists tbl'. rewrite Hr. split; [done|]. split.
  - by rewrite (readLines_length env _ _ _ Hr), length_tableResize.
  - intros i Hi. rewrite (readLines_spec env _ _ _ i Hr).
    rewrite tableAt_resize by lia. done.
Qed.

(** The statement at a data source of three lines, loaded twice. *)
Lemma init_appends_in_file_order_witness :
  let env := Sample.env [] in
  let lines :=
    [Sample.line 2 2 100000 (Fin 1); Sample.line 26 30 10000 (Fin 1);
     Sample.line 2 2 10000 (Fin 3)] in
  let tbl := Sample.load lines in
  exists tbl',
    init env (Some lines) tbl = Ok tbl'
    /\ length tbl' = (31 * 57)%nat
    /\ forall i,
         (0 <= i < 31 * 57)%Z ->
         tableAt tbl' i =
           Some (default [] (tableAt tbl i) ++ recordsAt env lines i).
Proof.
  apply (init_appends_in_file_order (Sample.env [])).
  repeat (apply Forall_cons_2 || apply Forall_nil_2);
    intros _; unfold lineIndex, pdIndex; simpl; lia.
Defined.






(** X6.  Loader and lookups agree on the pair (Z, N): after loading a
    data source whose record lines carry pairs with Z in [0,56] and N in
    [0,30] into a new table, the channel list both lookups read for a
    nucleus of charge number Z and mass number A (with Z and A - Z in
    those ranges) is made of the records of the lines whose first field
    is Z and whose second field is A - Z, in file order.  The second
    field is matched as it stands against the neutron number. *)
Theorem loaded_channels_of_nucleus (env : Env) (lines : list Line)
    (self : PhotoDisintegration) (candidate : Candidate.t) :
  Forall (fun l => isComment l = false -> inDomain (lineZ l) (lineN l))
    lines ->
  inDomain (ParticleState.getChargeNumber (Candidate.current candidate))
    (ParticleState.getMassNumber (Candidate.current candidate)
     - ParticleState.getChargeNumber (Candidate.current candidate)) ->
  init env (Some lines) [] = Ok (pdTable self) ->
  channelsOf self candidate =
    Some (recordOf env
            <$> List.filter
                  (isRecordOf
                     (ParticleState.getChargeNumber
                        (Candidate.current candidate))
                     (ParticleState.getMassNumber
                        (Candidate.current candidate)
                      - ParticleState.getChargeNumber
                          (Candidate.current candidate)))
                  lines).
Proof.
  intros Hall Hd Hinit. unfold channelsOf.
  set (Z_ := ParticleState.getChargeNumber (Candidate.current candidate))
    in *.
  set (N_ := (ParticleState.getMassNumber (Candidate.current candidate)
              - Z_)%Z) in *.
  unfold init in Hinit.
  destruct (readLines env lines (tableResize (31 * 57) [])) as [tbl'|]
    eqn:Hr; [|discriminate].
  injection Hinit as <-.
  rewrite (readLines_spec env _ _ _ _ Hr).
  rewrite tableAt_fresh by (pose proof (pdIndex_bound _ _ Hd); lia).
  simpl. f_equal. unfold recordsAt. f_equal.
  clear Hr tbl'. induction Hall as [|l lines Hl _ IH]; [done|].
  simpl. rewrite IH.
  assert (He : isRecordAt (pdIndex Z_ N_) l = isRecordOf Z_ N_ l);
    [|by rewrite He].
  unfold isRecordAt, isRecordOf.
  destruct (isComment l) eqn:Hc; [done|]. simpl.
  specialize (Hl eq_refl).
  destruct (Z.eqb_spec (lineIndex l) (pdIndex Z_ N_)) as [He|Hne].
  - destruct (pdIndex_inj _ _ _ _ Hl Hd He) as [-> ->].
    by rewrite !Z.eqb_refl.
  - destruct (Z.eqb_spec (lineZ l) Z_) as [HZ|]; [|done].
    destruct (Z.eqb_spec (lineN l) N_) as [HN|]; [|done].
    destruct Hne. unfold lineIndex. by rewrite HZ, HN.
Qed.

(** The statement at helium-4 in a data source of three lines. *)
Lemma loaded_channels_of_nucleus_witness :
  let env := Sample.env [] in
  let lines :=
    [Sample.line 2 2 100000 (Fin 1); Sample.line 26 30 10000 (Fin 1);
     Sample.line 2 2 10000 (Fin 3)] in
  channelsOf (Sample.object (Sample.load lines))
    (Sample.nucleus 4 2 (of_int (10 ^ 10)) zero) =
    Some (recordOf env <$> List.filter (isRecordOf 2 (4 - 2)) lines).
Proof.
  apply (loaded_channels_of_nucleus (Sample.env [])
           [Sample.line 2 2 100000 (Fin 1); Sample.line 26 30 10000 (Fin 1);
            Sample.line 2 2 10000 (Fin 3)]
           (Sample.object
              (Sample.load
                 [Sample.line 2 2 100000 (Fin 1);
                  Sample.line 26 30 10000 (Fin 1);
                  Sample.line 2 2 10000 (Fin 3)]))
           (Sample.nucleus 4 2 (of_int (10 ^ 10)) zero)).
  - repeat (apply Forall_cons_2 || apply Forall_nil_2);
      intros _; unfold inDomain; simpl; lia.
  - vm_compute. repeat split; discriminate.
  - vm_compute. reflexivity.
Defined.

(** ** The selector: what it touches and what it can return *)

Section SelectorFacts.

Variable env : Env.

(** Whatever the samples are, the loop ends holding either the
    interaction it was given or the sample and the code of one of the
    channels. *)
Lemma selectLoop_origin lg pdModes : forall st rng,
  (selectLoop env lg pdModes st rng).1 = st
  \/ exists k m,
       pdModes !! k = Some m
       /\ (selectLoop env lg pdModes st rng).1 =
            InteractionState.make (samplePath env lg m (rng + k))
              (PDMode.channel m).
Proof.
  induction pdModes as [|m rest IH]; intros st rng; [by left|].
  rewrite selectLoop_cons.
  destruct (samplePath env lg m rng >? InteractionState.distance st).
  - destruct (IH st (S rng)) as [He|(k & m' & Hk & He)]; [by left|].
    right. exists (S k), m'. split; [done|]. rewrite He.
    by replace (rng + S k)%nat with (S rng + k)%nat by lia.
  - destruct (IH (InteractionState.make (samplePath env lg m rng)
                    (PDMode.channel m)) (S rng))
      as [He|(k & m' & Hk & He)].
    + right. exists 0%nat, m. split; [done|]. rewrite He.
      by rewrite Nat.add_0_r.
    + right. exists (S k), m'. split; [done|]. rewrite He.
      by replace (rng + S k)%nat with (S rng + k)%nat by lia.
Qed.

(** The loop over a list followed by another is the loop over the
    first, then the loop over the second from where the first ended. *)
Lemma selectLoop_app lg pdModes1 pdModes2 : forall st rng,
  selectLoop env lg (pdModes1 ++ pdModes2) st rng =
    selectLoop env lg pdModes2
      (selectLoop env lg pdModes1 st rng).1
      (selectLoop env lg pdModes1 st rng).2.
Proof.
  induction pdModes1 as [|m rest IH]; intros st rng; [done|].
  rewrite <- app_comm_cons, !selectLoop_cons.
  destruct (samplePath env lg m rng >? InteractionState.distance st);
    apply IH.
Qed.

(** A sample that is not a number is never greater than anything. *)
Lemma nan_not_gtb x y : is_nan x = true -> (x >? y) = false.
Proof. by destruct x, y. Qed.

Lemma nan_div_mul x y z : is_nan x = true -> x / y * z = NaN.
Proof. by destruct x, y, z. Qed.

End SelectorFacts.

(** X7.  A call of the selector that is defined changes nothing of the
    candidate but the pending interaction stored under the description
    of its own module: the nucleus, the redshift, the active flag, the
    secondaries and the pending interactions of every other module are
    what they were, and when it returns false the candidate is
    untouched. *)
Theorem setNextInteraction_frame (env : Env) (self : PhotoDisintegration)
    (candidate : Candidate.t) (interaction : InteractionState.t)
    (rng : nat) (r : Selected) :
  setNextInteraction env self candidate interaction rng = Some r ->
  Candidate.current (candidate' r) = Candidate.current candidate
  /\ Candidate.redshift (candidate' r) = Candidate.redshift candidate
  /\ Candidate.active (candidate' r) = Candidate.active candidate
  /\ Candidate.secondaries (candidate' r) = Candidate.secondaries candidate
  /\ (forall name,
        name <> description self ->
        Candidate.getInteractionState name (candidate' r)
        = Candidate.getInteractionState name candidate)
  /\ (returned r = false -> candidate' r = candidate).
Proof.
  unfold setNextInteraction.
  destruct (tableAt _ _) as [pdModes|]; [|discriminate].
  destruct (length pdModes =? 0)%nat.
  { intros [= <-]. simpl. repeat split; done. }
  destruct ((lgOf env candidate <=? of_int 6)
            || (lgOf env candidate >=? of_int 14)).
  { intros [= <-]. simpl. repeat split; done. }
  destruct (selectLoop env (lgOf env candidate) pdModes _ rng)
    as [found rng1].
  intros [= <-]. simpl. repeat split; try done.
  intros name Hname. unfold Candidate.getInteractionState. simpl.
  by apply lookup_insert_ne.
Qed.

(** The statement at a candidate that holds the pending interaction of
    another module. *)
Lemma setNextInteraction_frame_witness :
  let env := Sample.env [Fin (1 # 2)] in
  let self :=
    Sample.object (Sample.load [Sample.line 26 30 10000 (Fin 1)]) in
  let candidate :=
    Candidate.setInteractionState "ElectronPairProduction"
      (InteractionState.make one 0)
      (Sample.nucleus 56 26 (of_int (10 ^ 10)) zero) in
  exists r,
    setNextInteraction env self candidate (defaultInteraction env) 0 = Some r
    /\ Candidate.current (candidate' r) = Candidate.current candidate
    /\ Candidate.redshift (candidate' r) = Candidate.redshift candidate
    /\ Candidate.active (candidate' r) = Candidate.active candidate
    /\ Candidate.secondaries (candidate' r) = Candidate.secondaries candidate
    /\ (forall name,
          name <> description self ->
          Candidate.getInteractionState name (candidate' r)
          = Candidate.getInteractionState name candidate)
    /\ (returned r = false -> candidate' r = candidate).
Proof.
  eexists. split; [vm_compute; reflexivity|].
  apply (setNextInteraction_frame (Sample.env [Fin (1 # 2)])
           (Sample.object (Sample.load [Sample.line 26 30 10000 (Fin 1)]))
           (Candidate.setInteractionState "ElectronPairProduction"
              (InteractionState.make one 0)
              (Sample.nucleus 56 26 (of_int (10 ^ 10)) zero))
           (InteractionState.make zero 0) 0).
  vm_compute. reflexivity.
Defined.

(** X8.  Whatever the rates and the draws are (numbers or not), the
    channel of the interaction a defined call hands back is the channel
    the caller's interaction held on entry or the code of one of the
    records of the nuclide, never anything else; and the call makes one
    draw per record when it returns true and none when it returns
    false. *)
Theorem setNextInteraction_channel_origin (env : Env)
    (self : PhotoDisintegration) (candidate : Candidate.t)
    (interaction : InteractionState.t) (rng : nat) (r : Selected)
    (pdModes : list PDMode.t) :
  channelsOf self candidate = Some pdModes ->
  setNextInteraction env self candidate interaction rng = Some r ->
  (InteractionState.channel (interaction' r)
   = InteractionState.channel interaction
   \/ InteractionState.channel (interaction' r)
      ∈ PDMode.channel <$> pdModes)
  /\ rng' r = (rng + if returned r then length pdModes else 0)%nat
  /\ (returned r = false -> interaction' r = interaction).
Proof.
  intros Ht Hcall.
  destruct (decide (pdModes = [])) as [Hnil|Hne];
    [|destruct ((lgOf env candidate <=? of_int 6)
                || (lgOf env candidate >=? of_int 14)) eqn:Hcheck].
  - rewrite (setNextInteraction_gives_up env _ _ _ _ pdModes Ht) in Hcall
      by (by left).
    injection Hcall as <-. simpl. split; [by left|]. split; [lia|done].
  - rewrite (setNextInteraction_gives_up env _ _ _ _ pdModes Ht) in Hcall
      by (by right).
    injection Hcall as <-. simpl. split; [by left|]. split; [lia|done].
  - rewrite (setNextInteraction_samples env _ _ _ _ pdModes Ht Hne Hcheck)
      in Hcall.
    injection Hcall as <-. simpl. split; [|done].
    destruct (selectLoop_origin env (lgOf env candidate) pdModes
                (InteractionState.make Double.max
                   (InteractionState.channel interaction)) rng)
      as [He|(k & m & Hk & He)]; rewrite He; simpl; [by left|].
    right. apply list_elem_of_fmap_2'
             with (x := m); [by eapply list_elem_of_lookup_2|done].
Qed.

(** The statement at two channels of helium-4. *)
Lemma setNextInteraction_channel_origin_witness :
  let env := Sample.env [Fin (1 # 2); Fin (1 # 4)] in
  let lines :=
    [Sample.line 2 2 100000 (Fin 1); Sample.line 2 2 10000 (Fin 3)] in
  let pdModes := recordOf env <$> lines in
  let self := Sample.object (Sample.load lines) in
  let candidate := Sample.nucleus 4 2 (of_int (10 ^ 10)) zero in
  let interaction := defaultInteraction env in
  exists r,
    setNextInteraction env self candidate interaction 0 = Some r
    /\ (InteractionState.channel (interaction' r)
        = InteractionState.channel interaction
        \/ InteractionState.channel (interaction' r)
           ∈ PDMode.channel <$> pdModes)
    /\ rng' r = (0 + if returned r then length pdModes else 0)%nat
    /\ (returned r = false -> interaction' r = interaction).
Proof.
  eexists. split; [vm_compute; reflexivity|].
  apply (setNextInteraction_channel_origin
           (Sample.env [Fin (1 # 2); Fin (1 # 4)])
           (Sample.object
              (Sample.load [Sample.line 2 2 100000 (Fin 1);
                            Sample.line 2 2 10000 (Fin 3)]))
           (Sample.nucleus 4 2 (of_int (10 ^ 10)) zero)
           (InteractionState.make zero 0) 0).
  - vm_compute. reflexivity.
  - vm_compute. reflexivity.
Defined.

(** X9.  The comparison [d > interaction.distance] is false for a sample
    that is not a number, so such a sample always replaces the current
    best: when the sample of the last record is not a number (its rate
    is zero at lg and its draw is 1, say), the call returns true with
    the channel of the last record and a distance that is not a number,
    whatever the other records sampled. *)
Theorem setNextInteraction_takes_nan_sample (env : Env)
    (self : PhotoDisintegration) (candidate : Candidate.t)
    (interaction : InteractionState.t) (rng : nat)
    (front : list PDMode.t) (m : PDMode.t) :
  channelsOf self candidate = Some (front ++ [m]) ->
  (of_int 6 <? lgOf env candidate) = true ->
  (lgOf env candidate <? of_int 14) = true ->
  is_nan (samplePath env (lgOf env candidate) m (rng + length front)) = true ->
  exists r,
    setNextInteraction env self candidate interaction rng = Some r
    /\ returned r = true
    /\ interaction' r = InteractionState.make NaN (PDMode.channel m).
Proof.
  intros Ht Hlo Hhi Hnan.
  assert (Hne : front ++ [m] <> []) by (by destruct front).
  pose proof (setNextInteraction_samples env self candidate interaction rng
                _ Ht Hne (inside_not_outside _ _ _ Hlo Hhi)) as Hcall.
  simpl in Hcall. rewrite selectLoop_app, selectLoop_rng in Hcall.
  rewrite selectLoop_cons, (nan_not_gtb _ _ Hnan) in Hcall.
  simpl in Hcall. rewrite (nan_div_mul _ _ _ Hnan) in Hcall.
  eexists. split; [exact Hcall|]. by simpl.
Qed.

(** The statement at helium-4 with a first record of rate 1 and a last
    record of rate 0 whose draw is 1: -log(1) / 0 is not a number. *)
Lemma setNextInteraction_takes_nan_sample_witness :
  let env := Sample.env [Fin (1 # 2); Fin 1] in
  let lines :=
    [Sample.line 2 2 100000 (Fin 1); Sample.line 2 2 10000 (Fin 0)] in
  let self := Sample.object (Sample.load lines) in
  let candidate := Sample.nucleus 4 2 (of_int (10 ^ 10)) zero in
  exists r,
    setNextInteraction env self candidate (defaultInteraction env) 0 = Some r
    /\ returned r = true
    /\ interaction' r = InteractionState.make NaN 10000.
Proof.
  apply (setNextInteraction_takes_nan_sample
           (Sample.env [Fin (1 # 2); Fin 1])
           (Sample.object
              (Sample.load [Sample.line 2 2 100000 (Fin 1);
                            Sample.line 2 2 10000 (Fin 0)]))
           (Sample.nucleus 4 2 (of_int (10 ^ 10)) zero)
           (InteractionState.make zero 0) 0
           [recordOf (Sample.env []) (Sample.line 2 2 100000 (Fin 1))]
           (recordOf (Sample.env []) (Sample.line 2 2 10000 (Fin 0)))).
  - vm_compute. reflexivity.
  - vm_compute. reflexivity.
  - vm_compute. reflexivity.
  - vm_compute. reflexivity.
Defined.

(** ** The executor: what it touches, and how far a channel can go *)

Section ExecutorFacts.

Variable env : Env.

(** The fields the executor leaves alone or resets, for every channel
    code. *)
Lemma performInteraction_other_fields self candidate :
  Candidate.interactionStates (performInteraction env self candidate) = ∅
  /\ Candidate.redshift (performInteraction env self candidate)
     = Candidate.redshift candidate
  /\ exists out,
       Candidate.secondaries (performInteraction env self candidate)
       = Candidate.secondaries candidate ++ out.
Proof.
  unfold performInteraction. cbv zeta.
  set (n := decode _). clearbody n.
  set (EpA := _ / of_int _). clearbody EpA.
  rewrite !addSecondaries_spec.
  cbn [Candidate.current Candidate.redshift Candidate.active
       Candidate.secondaries Candidate.interactionStates
       Candidate.clearInteractionStates].
  split; [by destruct (_ >? 0)%Z|]. split; [by destruct (_ >? 0)%Z|].
  rewrite <- !app_assoc. eexists.
  destruct (_ >? 0)%Z; reflexivity.
Qed.

(** A call of the selector that returns true has stored the interaction
    it hands back on the candidate it was given. *)
Lemma setNextInteraction_true_inv self candidate interaction rng r :
  setNextInteraction env self candidate interaction rng = Some r ->
  returned r = true ->
  candidate' r =
    Candidate.setInteractionState (description self) (interaction' r)
      candidate.
Proof.
  unfold setNextInteraction.
  destruct (tableAt _ _) as [pdModes|]; [|discriminate].
  destruct (length pdModes =? 0)%nat; [by intros [= <-]|].
  destruct ((lgOf env candidate <=? of_int 6)
            || (lgOf env candidate >=? of_int 14)); [by intros [= <-]|].
  destruct (selectLoop env (lgOf env candidate) pdModes _ rng)
    as [found rng1].
  by intros [= <-].
Qed.

(** The stored interaction of another name survives a defined call of
    the selector. *)
Lemma setNextInteraction_other_name self candidate interaction rng r name :
  setNextInteraction env self candidate interaction rng = Some r ->
  name <> description self ->
  Candidate.getInteractionState name (candidate' r)
  = Candidate.getInteractionState name candidate.
Proof.
  unfold setNextInteraction.
  destruct (tableAt _ _) as [pdModes|]; [|discriminate].
  destruct (length pdModes =? 0)%nat; [by intros [= <-]|].
  destruct ((lgOf env candidate <=? of_int 6)
            || (lgOf env candidate >=? of_int 14)); [by intros [= <-]|].
  destruct (selectLoop env (lgOf env candidate) pdModes _ rng)
    as [found rng1].
  intros [= <-] Hname. unfold Candidate.getInteractionState. simpl.
  by apply lookup_insert_ne.
Qed.

Lemma length_secondariesOf n EpA :
  digitCounts n ->
  Z.of_nat (length (secondariesOf n EpA)) = particlesEmitted n.
Proof.
  intros (H1 & H2 & H3 & H4 & H5 & H6).
  unfold secondariesOf, particlesEmitted.
  rewrite !length_app, !length_replicate. lia.
Qed.

(** The energies of the secondaries of digit counts add up to the energy
    per nucleon times the number of nucleons emitted. *)
Lemma sumEnergies_secondariesOf n (q : Q) :
  digitCounts n ->
  exists s,
    sumEnergies (secondariesOf n (Fin q)) = Fin s
    /\ (s == q * inject_Z (nucleonsLost n))%Q.
Proof.
  intros (H1 & H2 & H3 & H4 & H5 & H6).
  unfold sumEnergies, Double.sum, secondariesOf, zero.
  rewrite !fmap_app, !fmap_replicate, !fold_left_app.
  cbn [ParticleState.getEnergy ParticleState.energy Double.mul of_int].
  destruct (fold_add_replicate (Z.to_nat (nNeutron n)) q 0)
    as (q1 & -> & E1).
  destruct (fold_add_replicate (Z.to_nat (nProton n)) q q1)
    as (q2 & -> & E2).
  destruct (fold_add_replicate (Z.to_nat (nH2 n)) (q * inject_Z 2) q2)
    as (q3 & -> & E3).
  destruct (fold_add_replicate (Z.to_nat (nH3 n)) (q * inject_Z 3) q3)
    as (q4 & -> & E4).
  destruct (fold_add_replicate (Z.to_nat (nHe3 n)) (q * inject_Z 3) q4)
    as (q5 & -> & E5).
  destruct (fold_add_replicate (Z.to_nat (nHe4 n)) (q * inject_Z 4) q5)
    as (q6 & -> & E6).
  exists q6. split; [done|].
  rewrite E6, E5, E4, E3, E2, E1. rewrite !Z2Nat.id by lia.
  unfold nucleonsLost.
  rewrite ?inject_Z_plus, ?inject_Z_mult. ring.
Qed.

Lemma decode_digitCounts channel :
  (0 <= channel)%Z -> digitCounts (decode channel).
Proof. intros Hc. exact (decode_bounds channel Hc). Qed.

Lemma inject_Z_nonzero (z : Z) : z <> 0%Z -> ~ (inject_Z z == 0)%Q.
Proof. intros Hz H0. apply (inject_Z_injective z 0) in H0. contradiction. Qed.

End ExecutorFacts.

(** X10.  Selector and executor fit together: after a call of the
    selector that returns true, the pending interaction the executor
    reads back on the candidate is the one the selector handed out, so
    the executor emits the secondaries of the selected channel (its code
    not negative), with the energy per nucleon of the nucleus the
    selector saw; and after the executor no pending interaction is
    left. *)
Theorem select_then_perform (env : Env) (self : PhotoDisintegration)
    (candidate : Candidate.t) (interaction : InteractionState.t)
    (rng : nat) (r : Selected) :
  setNextInteraction env self candidate interaction rng = Some r ->
  returned r = true ->
  (0 <= InteractionState.channel (interaction' r))%Z ->
  pendingOf env self (candidate' r) = interaction' r
  /\ emitted (candidate' r) (performInteraction env self (candidate' r)) =
       secondariesOf (decode (InteractionState.channel (interaction' r)))
         (ParticleState.getEnergy (Candidate.current candidate)
          / of_int (ParticleState.getMassNumber (Candidate.current candidate)))
  /\ Candidate.getInteractionState (description self)
       (performInteraction env self (candidate' r)) = None.
Proof.
  intros Hcall Hret Hc.
  pose proof (setNextInteraction_true_inv env _ _ _ _ _ Hcall Hret) as Hcand.
  assert (Hpend : pendingOf env self (candidate' r) = interaction' r).
  { rewrite Hcand. unfold pendingOf, Candidate.getInteractionState. simpl.
    by rewrite lookup_insert_eq. }
  split; [exact Hpend|]. split.
  - rewrite emitted_performInteraction by (by rewrite Hpend).
    rewrite Hpend. by rewrite Hcand.
  - destruct (performInteraction_other_fields env self (candidate' r))
      as (Hst & _). unfold Candidate.getInteractionState. by rewrite Hst.
Qed.

(** The statement at iron-56 with the one channel 10000. *)
Lemma select_then_perform_witness :
  let env := Sample.env [Fin (1 # 2)] in
  let self :=
    Sample.object (Sample.load [Sample.line 26 30 10000 (Fin 1)]) in
  let candidate := Sample.nucleus 56 26 (of_int (10 ^ 10)) zero in
  exists r,
    setNextInteraction env self candidate (defaultInteraction env) 0 = Some r
    /\ pendingOf env self (candidate' r) = interaction' r
    /\ emitted (candidate' r) (performInteraction env self (candidate' r)) =
         secondariesOf (decode (InteractionState.channel (interaction' r)))
           (ParticleState.getEnergy (Candidate.current candidate)
            / of_int
                (ParticleState.getMassNumber (Candidate.current candidate)))
    /\ Candidate.getInteractionState (description self)
         (performInteraction env self (candidate' r)) = None.
Proof.
  eexists. split; [vm_compute; reflexivity|].
  apply (select_then_perform (Sample.env [Fin (1 # 2)])
           (Sample.object (Sample.load [Sample.line 26 30 10000 (Fin 1)]))
           (Sample.nucleus 56 26 (of_int (10 ^ 10)) zero)
           (InteractionState.make zero 0) 0).
  - vm_compute. reflexivity.
  - reflexivity.
  - vm_compute. discriminate.
Defined.

(** X11.  For every channel code, the executor empties the pending
    interactions of the candidate, those of every other module
    included, leaves the redshift alone and only appends to the
    secondaries: the ones the candidate had stay in front, in their
    order. *)
Theorem performInteraction_clears_all_states (env : Env)
    (self : PhotoDisintegration) (candidate : Candidate.t) :
  (forall name,
     Candidate.getInteractionState name
       (performInteraction env self candidate) = None)
  /\ Candidate.redshift (performInteraction env self candidate)
     = Candidate.redshift candidate
  /\ Candidate.secondaries candidate
     `prefix_of` Candidate.secondaries (performInteraction env self candidate).
Proof.
  destruct (performInteraction_other_fields env self candidate)
    as (Hst & Hz & out & Hout).
  split; [|split; [exact Hz|]].
  - intros name. unfold Candidate.getInteractionState. by rewrite Hst.
  - exists out. exact Hout.
Qed.

(** X12.  A channel code that is not negative can only take nucleons
    away: -126 <= dA <= dZ <= 0 and -63 <= dZ, the executor appends as
    many secondaries as the six digits add up to (54 at most), and when
    a remnant is left (A' > 0) its mass number, its charge number and
    its neutron number are at most those of the parent. *)
Theorem performInteraction_only_removes_nucleons (env : Env)
    (self : PhotoDisintegration) (candidate : Candidate.t) :
  (0 <= InteractionState.channel (pendingOf env self candidate))%Z ->
  let n := decode (InteractionState.channel (pendingOf env self candidate)) in
  let before := Candidate.current candidate in
  let after := performInteraction env self candidate in
  (-126 <= dA_of n <= dZ_of n /\ -63 <= dZ_of n <= 0)%Z
  /\ Z.of_nat (length (emitted candidate after)) = particlesEmitted n
  /\ (0 <= particlesEmitted n <= 54)%Z
  /\ ((ParticleState.getMassNumber before + dA_of n > 0)%Z ->
      (ParticleState.getMassNumber (Candidate.current after)
       <= ParticleState.getMassNumber before
       /\ ParticleState.getChargeNumber (Candidate.current after)
          <= ParticleState.getChargeNumber before
       /\ ParticleState.getMassNumber (Candidate.current after)
          - ParticleState.getChargeNumber (Candidate.current after)
          <= ParticleState.getMassNumber before
             - ParticleState.getChargeNumber before)%Z).
Proof.
  intros Hc n before after.
  pose proof (decode_digitCounts _ Hc) as Hd. fold n in Hd.
  assert (Hout : Z.of_nat (length (emitted candidate after))
                 = particlesEmitted n).
  { subst after. rewrite emitted_performInteraction by done.
    by apply length_secondariesOf. }
  assert (Hcur : (ParticleState.getMassNumber before + dA_of n > 0)%Z ->
                 Candidate.current after =
                   ParticleState.make
                     (getNucleusId
                        (ParticleState.getMassNumber before + dA_of n)
                        (ParticleState.getChargeNumber before + dZ_of n))
                     (ParticleState.getEnergy before
                      / of_int (ParticleState.getMassNumber before)
                      * of_int (ParticleState.getMassNumber before
                                + dA_of n))).
  { intros Hpos. subst after.
    destruct (performInteraction_current_active env self candidate)
      as [-> _]. fold n before.
    destruct (Z.gtb_spec (ParticleState.getMassNumber before + dA_of n) 0);
      [done|lia]. }
  clearbody n after before.
  destruct Hd as (H1 & H2 & H3 & H4 & H5 & H6).
  split; [unfold dA_of, dZ_of; lia|]. split; [exact Hout|].
  split; [unfold particlesEmitted; lia|].
  intros Hpos. rewrite (Hcur Hpos).
  unfold ParticleState.getMassNumber, ParticleState.getChargeNumber.
  cbn [ParticleState.id massNumber chargeNumber].
  unfold dA_of, dZ_of. lia.
Qed.

(** The statement at iron-56 with the pending channel 10102: one
    proton, one triton and two helium-4. *)
Lemma performInteraction_only_removes_nucleons_witness :
  let env := Sample.env [] in
  let self := Sample.object [] in
  let candidate :=
    Candidate.setInteractionState (description self)
      (InteractionState.make one 10102)
      (Sample.nucleus 56 26 (of_int (10 ^ 10)) zero) in
  let n := decode 10102 in
  let after := performInteraction env self candidate in
  (-126 <= dA_of n <= dZ_of n /\ -63 <= dZ_of n <= 0)%Z
  /\ Z.of_nat (length (emitted candidate after)) = particlesEmitted n
  /\ (0 <= particlesEmitted n <= 54)%Z
  /\ ((56 + dA_of n > 0)%Z ->
      (ParticleState.getMassNumber (Candidate.current after) <= 56
       /\ ParticleState.getChargeNumber (Candidate.current after) <= 26
       /\ ParticleState.getMassNumber (Candidate.current after)
          - ParticleState.getChargeNumber (Candidate.current after)
          <= 56 - 26)%Z).
Proof.
  apply (performInteraction_only_removes_nucleons (Sample.env [])
           (Sample.object [])
           (Candidate.setInteractionState "PhotoDisintegration: CMB"
              (InteractionState.make one 10102)
              (Sample.nucleus 56 26 (of_int (10 ^ 10)) zero))).
  vm_compute. discriminate.
Defined.

(** X13.  The six places the executor and the estimator read are those
    of a six-digit decimal number: the channel code that holds six
    decimal digits at the places 100000, 10000, 1000, 100, 10 and 1
    decodes to these six counts, neutrons first and helium-4 last. *)
Theorem decode_encode (c : Counts) :
  digitCounts c -> decode (encode c) = c.
Proof.
  intros (H1 & H2 & H3 & H4 & H5 & H6). destruct c as [a b c d e f].
  simpl in *. unfold decode, encode, digit. simpl.
  f_equal; Z.to_euclidean_division_equations; lia.
Qed.

(** The statement at one proton, one triton and two helium-4. *)
Lemma decode_encode_witness :
  decode 10102 =
    {| nNeutron := 0; nProton := 1; nH2 := 0; nH3 := 1; nHe3 := 0;
       nHe4 := 2 |}.
Proof.
  apply (decode_encode
           {| nNeutron := 0; nProton := 1; nH2 := 0; nH3 := 1; nHe3 := 0;
              nHe4 := 2 |}).
  unfold digitCounts. simpl. lia.
Defined.

(** X14.  A channel code whose six digits are zero (the code 0 of a
    default-constructed interaction, for one) emits nothing: on a
    nucleus with A > 0 and a finite energy the executor appends no
    secondary and leaves the identity, the active flag and, up to the
    division by A and multiplication by A, the energy as they were; it
    still empties the pending interactions. *)
Theorem performInteraction_empty_channel (env : Env)
    (self : PhotoDisintegration) (candidate : Candidate.t) (e : Q) :
  (0 <= InteractionState.channel (pendingOf env self candidate))%Z ->
  nucleonsLost
    (decode (InteractionState.channel (pendingOf env self candidate))) = 0%Z ->
  (0 < ParticleState.getMassNumber (Candidate.current candidate))%Z ->
  ParticleState.getEnergy (Candidate.current candidate) = Fin e ->
  let after := performInteraction env self candidate in
  Candidate.secondaries after = Candidate.secondaries candidate
  /\ ParticleState.id (Candidate.current after)
     = ParticleState.id (Candidate.current candidate)
  /\ ParticleState.getEnergy (Candidate.current after) == Fin e
  /\ Candidate.active after = Candidate.active candidate
  /\ Candidate.interactionStates after = ∅.
Proof.
  intros Hc Hzero HA He after. subst after.
  pose proof (decode_digitCounts _ Hc) as (H1 & H2 & H3 & H4 & H5 & H6).
  rewrite (performInteraction_spec env _ _ Hc).
  set (n := decode _) in *. clearbody n.
  assert (Hn : (nNeutron n = 0 /\ nProton n = 0 /\ nH2 n = 0 /\ nH3 n = 0
                /\ nHe3 n = 0 /\ nHe4 n = 0)%Z)
    by (unfold nucleonsLost in Hzero; lia).
  destruct Hn as (E1 & E2 & E3 & E4 & E5 & E6).
  unfold secondariesOf, dA_of, dZ_of.
  rewrite E1, E2, E3, E4, E5, E6. cbn [Z.to_nat replicate app].
  cbn [Candidate.current Candidate.secondaries Candidate.active
       Candidate.interactionStates].
  replace (_ + (- 0 - 0 - 2 * 0 - 3 * 0 - 3 * 0 - 4 * 0))%Z
    with (ParticleState.getMassNumber (Candidate.current candidate))
    by lia.
  replace (_ + (- 0 - 0 - 0 - 2 * 0 - 2 * 0))%Z
    with (ParticleState.getChargeNumber (Candidate.current candidate))
    by lia.
  destruct (Z.gtb_spec (ParticleState.getMassNumber
                          (Candidate.current candidate)) 0); [|lia].
  rewrite app_nil_r. repeat split.
  - unfold ParticleState.getMassNumber, ParticleState.getChargeNumber.
    cbn [ParticleState.id]. by destruct (ParticleState.id _).
  - rewrite He. unfold of_int.
    rewrite not_eqv_zero_div.
    + simpl. field. apply inject_Z_nonzero. lia.
    + apply inject_Z_nonzero. lia.
Qed.

(** The statement at iron-56 holding no pending interaction: the
    executor reads the default-constructed one, of channel 0. *)
Lemma performInteraction_empty_channel_witness :
  let env := Sample.env [] in
  let self := Sample.object [] in
  let candidate := Sample.nucleus 56 26 (of_int (10 ^ 10)) zero in
  let after := performInteraction env self candidate in
  Candidate.secondaries after = Candidate.secondaries candidate
  /\ ParticleState.id (Candidate.current after)
     = ParticleState.id (Candidate.current candidate)
  /\ ParticleState.getEnergy (Candidate.current after)
     == Fin (inject_Z 56 * inject_Z (10 ^ 10))
  /\ Candidate.active after = Candidate.active candidate
  /\ Candidate.interactionStates after = ∅.
Proof.
  apply (performInteraction_empty_channel (Sample.env [])
           (Sample.object [])
           (Sample.nucleus 56 26 (of_int (10 ^ 10)) zero)
           (inject_Z 56 * inject_Z (10 ^ 10))%Q).
  - vm_compute. discriminate.
  - vm_compute. reflexivity.
  - vm_compute. reflexivity.
  - reflexivity.
Defined.

(** X15.  The secondaries are appended in both branches of the test on
    A', each with the energy per nucleon of the parent times its mass
    number; so for a channel code that is not negative, on a nucleus
    with A > 0 and a finite energy E, they carry E * (nucleons emitted)
    / A in all.  When the channel emits exactly the A nucleons of the
    parent they carry E, and the deactivated parent still holds E as
    well; when it emits more than A nucleons they carry more than E. *)
Theorem secondaries_energy_share (env : Env) (self : PhotoDisintegration)
    (candidate : Candidate.t) (e : Q) :
  (0 <= InteractionState.channel (pendingOf env self candidate))%Z ->
  (0 < ParticleState.getMassNumber (Candidate.current candidate))%Z ->
  ParticleState.getEnergy (Candidate.current candidate) = Fin e ->
  let n := decode (InteractionState.channel (pendingOf env self candidate)) in
  let A_ := ParticleState.getMassNumber (Candidate.current candidate) in
  let after := performInteraction env self candidate in
  exists s,
    sumEnergies (emitted candidate after) = Fin s
    /\ (s == e * inject_Z (nucleonsLost n) / inject_Z A_)%Q
    /\ ((A_ + dA_of n = 0)%Z ->
        (s == e)%Q
        /\ Candidate.active after = false
        /\ ParticleState.getEnergy (Candidate.current after) = Fin e)
    /\ ((A_ + dA_of n < 0)%Z -> (0 < e)%Q -> (e < s)%Q).
Proof.
  intros Hc HA He n A_ after.
  pose proof (decode_digitCounts _ Hc) as Hd. fold n in Hd.
  assert (Ha : ~ (inject_Z A_ == 0)%Q) by (apply inject_Z_nonzero; lia).
  assert (Hout : emitted candidate after
                 = secondariesOf n (Fin (e / inject_Z A_))).
  { subst after. rewrite emitted_performInteraction by done.
    fold n A_. rewrite He. unfold of_int. by rewrite not_eqv_zero_div. }
  destruct (performInteraction_current_active env self candidate)
    as [Hcur Hact].
  fold n A_ after in Hcur, Hact.
  destruct (sumEnergies_secondariesOf n (e / inject_Z A_) Hd)
    as (s & Hs & Es).
  assert (HdA : dA_of n = (- nucleonsLost n)%Z)
    by (unfold dA_of, nucleonsLost; lia).
  clearbody after n. fold A_ in HA. clearbody A_.
  exists s. rewrite Hout. split; [exact Hs|]. split; [|split].
  - rewrite Es. field. exact Ha.
  - intros H0. split; [|split].
    + rewrite Es. replace (nucleonsLost n) with A_ by lia.
      field. exact Ha.
    + rewrite Hact. by destruct (Z.gtb_spec (A_ + dA_of n) 0); [lia|].
    + rewrite Hcur. destruct (Z.gtb_spec (A_ + dA_of n) 0); [lia|].
      exact He.
  - intros Hneg Hpos. rewrite Es.
    assert (Hlt : (inject_Z A_ < inject_Z (nucleonsLost n))%Q)
      by (rewrite <- Zlt_Qlt; lia).
    assert (H0A : (0 < inject_Z A_)%Q)
      by (change 0%Q with (inject_Z 0); rewrite <- Zlt_Qlt; lia).
    assert (Heq : (e / inject_Z A_ * inject_Z (nucleonsLost n)
                   == e * inject_Z (nucleonsLost n) / inject_Z A_)%Q)
      by (field; exact Ha).
    rewrite Heq. apply Qlt_shift_div_l; [exact H0A|].
    by apply Qmult_lt_l.
Qed.

(** The statement at helium-4 with the pending channel 2, two helium-4:
    eight nucleons leave a nucleus of four. *)
Lemma secondaries_energy_share_witness :
  let env := Sample.env [] in
  let self := Sample.object [] in
  let candidate :=
    Candidate.setInteractionState (description self)
      (InteractionState.make one 2)
      (Sample.nucleus 4 2 (of_int (10 ^ 10)) zero) in
  let e := (inject_Z 4 * inject_Z (10 ^ 10))%Q in
  let n := decode 2 in
  let after := performInteraction env self candidate in
  exists s,
    sumEnergies (emitted candidate after) = Fin s
    /\ (s == e * inject_Z (nucleonsLost n) / inject_Z 4)%Q
    /\ ((4 + dA_of n = 0)%Z ->
        (s == e)%Q
        /\ Candidate.active after = false
        /\ ParticleState.getEnergy (Candidate.current after) = Fin e)
    /\ ((4 + dA_of n < 0)%Z -> (0 < e)%Q -> (e < s)%Q).
Proof.
  apply (secondaries_energy_share (Sample.env []) (Sample.object [])
           (Candidate.setInteractionState "PhotoDisintegration: CMB"
              (InteractionState.make one 2)
              (Sample.nucleus 4 2 (of_int (10 ^ 10)) zero))
           (inject_Z 4 * inject_Z (10 ^ 10))%Q).
  - vm_compute. discriminate.
  - vm_compute. reflexivity.
  - reflexivity.
Defined.

(** ** The estimator at finite rates *)

Section EstimatorFacts.

Variable env : Env.

Lemma weightedRate_finite lg A_ m (r : Q) :
  A_ <> 0%Z ->
  rateAt env lg m = Fin r ->
  weightedRate env lg A_ m =
    Fin (r * (inject_Z (nucleonsLost (decode (PDMode.channel m)))
              / inject_Z A_)).
Proof.
  intros HA Hr. unfold weightedRate, of_int. rewrite Hr.
  rewrite not_eqv_zero_div by (by apply inject_Z_nonzero). done.
Qed.

Lemma sum_weightedRate_finite lg A_ (r : PDMode.t -> Q) pdModes :
  A_ <> 0%Z ->
  Forall (fun m => rateAt env lg m = Fin (r m)) pdModes ->
  forall a : Q,
  exists s,
    fold_left Double.add (weightedRate env lg A_ <$> pdModes) (Fin a) = Fin s
    /\ (s == a + strippingRate r pdModes / inject_Z A_)%Q.
Proof.
  intros HA Hall.
  pose proof (inject_Z_nonzero A_ HA) as Ha.
  induction Hall as [|m rest Hm _ IH]; intros a.
  - exists a. split; [done|]. unfold strippingRate. simpl. field. exact Ha.
  - cbn [fmap list_fmap fold_left].
    rewrite (weightedRate_finite lg A_ m (r m) HA Hm).
    cbn [Double.add].
    destruct (IH (a + r m * (inject_Z (nucleonsLost
                                         (decode (PDMode.channel m)))
                             / inject_Z A_))%Q) as (s & Hs & Es).
    exists s. split; [exact Hs|]. rewrite Es.
    unfold strippingRate. cbn [fmap list_fmap foldr].
    fold (strippingRate r rest). field. exact Ha.
Qed.

(** The call when the list is not empty and lg is inside the range. *)
Lemma energyLossLength_in_range self id E pdModes :
  tableAt (pdTable self)
    (pdIndex (getChargeNumberFromNucleusId id)
       (getMassNumberFromNucleusId id - getChargeNumberFromNucleusId id))
    = Some pdModes ->
  pdModes <> [] ->
  (of_int 6 <? log10 env (E / (getNucleusMass env id * c_squared env)))
    = true ->
  (log10 env (E / (getNucleusMass env id * c_squared env)) <? of_int 14)
    = true ->
  energyLossLength env self id E =
    Some (one
          / Double.sum
              (weightedRate env
                 (log10 env (E / (getNucleusMass env id * c_squared env)))
                 (getMassNumberFromNucleusId id) <$> pdModes)).
Proof.
  intros Ht Hne Hlo Hhi. unfold energyLossLength. rewrite Ht.
  destruct pdModes as [|m rest]; [done|].
  cbn [length Nat.eqb]. rewrite (inside_not_outside _ _ _ Hlo Hhi).
  by rewrite lossLoop_sum.
Qed.

End EstimatorFacts.



(** X17.  When the same sum is zero (every rate zero at lg, or no
    channel strips a nucleon), the energy-loss length is 1 / 0, that is
    plus infinity: not the largest finite double the function returns
    for a nuclide without data or an lg out of range. *)
Theorem energyLossLength_no_loss_is_infinite (env : Env)
    (self : PhotoDisintegration) (id : NucleusId) (E : double)
    (pdModes : list PDMode.t) (r : PDMode.t -> Q) :
  tableAt (pdTable self)
    (pdIndex (getChargeNumberFromNucleusId id)
       (getMassNumberFromNucleusId id - getChargeNumberFromNucleusId id))
    = Some pdModes ->
  pdModes <> [] ->
  (of_int 6 <? log10 env (E / (getNucleusMass env id * c_squared env)))
    = true ->
  (log10 env (E / (getNucleusMass env id * c_squared env)) <? of_int 14)
    = true ->
  getMassNumberFromNucleusId id <> 0%Z ->
  Forall (fun m =>
            rateAt env
              (log10 env (E / (getNucleusMass env id * c_squared env))) m
            = Fin (r m)) pdModes ->
  (strippingRate r pdModes == 0)%Q ->
  energyLossLength env self id E = Some PInf
  /\ ~ (PInf == Double.max).
Proof.
  intros Ht Hne Hlo Hhi HA Hall Htotal.
  split; [|unfold Double.max, Double.eqv; tauto].
  rewrite (energyLossLength_in_range env _ _ _ _ Ht Hne Hlo Hhi).
  pose proof (inject_Z_nonzero _ HA) as Ha.
  destruct (sum_weightedRate_finite env _ _ r pdModes HA Hall 0)
    as (s & Hs & Es).
  unfold Double.sum, zero. rewrite Hs.
  assert (Hs0 : (s == 0)%Q).
  { rewrite Es, Htotal. field. exact Ha. }
  unfold one. cbn [Double.div].
  apply Qeq_bool_iff in Hs0. by rewrite Hs0.
Qed.

(** The statement at iron-56 with two channels whose rates are zero. *)
Lemma energyLossLength_no_loss_is_infinite_witness :
  let env := Sample.env [] in
  let lines :=
    [Sample.line 26 30 10000 (Fin 0); Sample.line 26 30 100000 (Fin 0)] in
  let self := Sample.object (Sample.load lines) in
  energyLossLength env self (getNucleusId 56 26) (of_int (56 * 10 ^ 10))
    = Some PInf
  /\ ~ (PInf == Double.max).
Proof.
  apply (energyLossLength_no_loss_is_infinite (Sample.env [])
           (Sample.object
              (Sample.load [Sample.line 26 30 10000 (Fin 0);
                            Sample.line 26 30 100000 (Fin 0)]))
           (getNucleusId 56 26) (of_int (56 * 10 ^ 10))
           (recordOf (Sample.env [])
              <$> [Sample.line 26 30 10000 (Fin 0);
                   Sample.line 26 30 100000 (Fin 0)])
           (fun m => match rateAt (Sample.env []) (of_int 10) m with
                     | Fin q => q
                     | _ => 0%Q
                     end)).
  - vm_compute. reflexivity.
  - discriminate.
  - vm_compute. reflexivity.
  - vm_compute. reflexivity.
  - discriminate.
  - repeat (apply Forall_cons_2 || apply Forall_nil_2);
      vm_compute; reflexivity.
  - vm_compute. reflexivity.
Defined.

(** ** Construction *)


(** X19.  Objects built for different photon fields carry different
    descriptions, so the selector of one never overwrites the pending
    interaction the other has stored on the same candidate. *)
Theorem modules_of_different_fields_keep_apart (env : Env)
    (open : string -> option (list Line)) (field1 field2 : PhotonField)
    (self1 self2 : PhotoDisintegration) (candidate : Candidate.t)
    (interaction : InteractionState.t) (rng : nat) (r : Selected) :
  initField env open field1 = Ok self1 ->
  initField env open field2 = Ok self2 ->
  field1 <> field2 ->
  setNextInteraction env self1 candidate interaction rng = Some r ->
  description self1 <> description self2
  /\ Candidate.getInteractionState (description self2) (candidate' r)
     = Candidate.getInteractionState (description self2) candidate.
Proof.
  intros H1 H2 Hne Hcall.
  assert (Hd : forall f s, initField env open f = Ok s ->
                           description s = descriptionOf f).
  { intros f s. unfold initField.
    destruct f; simpl; destruct (init _ _ _); intros [= <-]; done. }
  assert (Hdiff : description self1 <> description self2).
  { rewrite (Hd _ _ H1), (Hd _ _ H2).
    destruct field1, field2; try done; discriminate. }
  split; [exact Hdiff|].
  apply (setNextInteraction_other_name env _ _ _ _ _ _ Hcall).
  congruence.
Qed.

(** The statement at a CMB object and an IRB object built from the same
    lines, the IRB one having selected first. *)
Lemma modules_of_different_fields_keep_apart_witness :
  let env := Sample.env [Fin (1 # 2); Fin (1 # 4)] in
  let open := fun _ : string => Some [Sample.line 26 30 10000 (Fin 1)] in
  let tbl := Sample.load [Sample.line 26 30 10000 (Fin 1)] in
  let self1 :=
    {| photonField := CMB; description := descriptionOf CMB;
       pdTable := tbl |} in
  let self2 :=
    {| photonField := IRB; description := descriptionOf IRB;
       pdTable := tbl |} in
  let candidate :=
    Candidate.setInteractionState (description self2)
      (InteractionState.make one 10000)
      (Sample.nucleus 56 26 (of_int (10 ^ 10)) zero) in
  exists r,
    setNextInteraction env self1 candidate (defaultInteraction env) 0
      = Some r
    /\ description self1 <> description self2
    /\ Candidate.getInteractionState (description self2) (candidate' r)
       = Candidate.getInteractionState (description self2) candidate.
Proof.
  eexists. split; [vm_compute; reflexivity|].
  apply (modules_of_different_fields_keep_apart
           (Sample.env [Fin (1 # 2); Fin (1 # 4)])
           (fun _ : string => Some [Sample.line 26 30 10000 (Fin 1)])
           CMB IRB _ _
           (Candidate.setInteractionState (descriptionOf IRB)
              (InteractionState.make one 10000)
              (Sample.nucleus 56 26 (of_int (10 ^ 10)) zero))
           (InteractionState.make zero 0) 0).
  - vm_compute. reflexivity.
  - vm_compute. reflexivity.
  - discriminate.
  - vm_compute. reflexivity.
Defined.

(** ** The distance before scaling *)

(** X20.  When the sampled free paths are numbers, the distance the
    loop finds, which the call then divides by the scaling factor and
    multiplies by (1 + z), is the least of the sentinel and the samples:
    it is at most the largest finite double and at most every sample,
    and it is the largest finite double or one of the samples.  The call
    never records a scaled infinite sample. *)
Theorem setNextInteraction_distance_capped (env : Env)
    (self : PhotoDisintegration) (candidate : Candidate.t)
    (interaction : InteractionState.t) (rng : nat)
    (pdModes : list PDMode.t) :
  channelsOf self candidate = Some pdModes ->
  pdModes <> [] ->
  (of_int 6 <? lgOf env candidate) = true ->
  (lgOf env candidate <? of_int 14) = true ->
  Forall (fun d => is_nan d = false)
    (samplePaths env (lgOf env candidate) pdModes rng) ->
  exists r d,
    setNextInteraction env self candidate interaction rng = Some r
    /\ InteractionState.distance (interaction' r) =
         d
         / photonFieldScaling env (photonField self)
             (Candidate.getRedshift candidate)
         * (one + Candidate.getRedshift candidate)
    /\ (d <=? Double.max) = true
    /\ Forall (fun d' => (d <=? d') = true)
         (samplePaths env (lgOf env candidate) pdModes rng)
    /\ (d = Double.max
        \/ d ∈ samplePaths env (lgOf env candidate) pdModes rng).
Proof.
  intros Ht Hne Hlo Hhi Hnum.
  pose proof (setNextInteraction_samples env self candidate interaction rng
                pdModes Ht Hne (inside_not_outside _ _ _ Hlo Hhi)) as Hcall.
  destruct (selectLoop_min env (lgOf env candidate) pdModes
              (InteractionState.make Double.max
                 (InteractionState.channel interaction)) rng
              eq_refl Hnum) as (Hcap & Hmin & Hcase).
  simpl in Hcall, Hcap, Hmin.
  eexists _, _. split; [exact Hcall|]. simpl.
  split; [reflexivity|]. split; [exact Hcap|]. split; [exact Hmin|].
  destruct Hcase as [[-> _]|(k & m & d & Hk & Hd & -> & _)]; [by left|].
  right. simpl. by eapply list_elem_of_lookup_2.
Qed.

(** The statement at helium-4 with one channel of rate zero and one of
    rate 3 / Mpc. *)
Lemma setNextInteraction_distance_capped_witness :
  let env := Sample.env [Fin (1 # 2); Fin (1 # 4)] in
  let lines :=
    [Sample.line 2 2 100000 (Fin 0); Sample.line 2 2 10000 (Fin 3)] in
  let pdModes := recordOf env <$> lines in
  let self := Sample.object (Sample.load lines) in
  let candidate := Sample.nucleus 4 2 (of_int (5 * 10 ^ 9)) (Fin 1) in
  exists r d,
    setNextInteraction env self candidate (defaultInteraction env) 0 = Some r
    /\ InteractionState.distance (interaction' r) =
         d
         / photonFieldScaling env (photonField self)
             (Candidate.getRedshift candidate)
         * (one + Candidate.getRedshift candidate)
    /\ (d <=? Double.max) = true
    /\ Forall (fun d' => (d <=? d') = true)
         (samplePaths env (lgOf env candidate) pdModes 0)
    /\ (d = Double.max
        \/ d ∈ samplePaths env (lgOf env candidate) pdModes 0).
Proof.
  apply (setNextInteraction_distance_capped
           (Sample.env [Fin (1 # 2); Fin (1 # 4)])
           (Sample.object
              (Sample.load [Sample.line 2 2 100000 (Fin 0);
                            Sample.line 2 2 10000 (Fin 3)]))
           (Sample.nucleus 4 2 (of_int (5 * 10 ^ 9)) (Fin 1))
           (InteractionState.make zero 0) 0
           (recordOf (Sample.env [])
              <$> [Sample.line 2 2 100000 (Fin 0);
                   Sample.line 2 2 10000 (Fin 3)])).
  - vm_compute. reflexivity.
  - discriminate.
  - vm_compute. reflexivity.
  - vm_compute. reflexivity.
  - vm_compute. repeat constructor.
Defined.
